(** * Predator: Badlands -- combat, honour, learner and adaptive adversary

    A shallow embedding of the decision-and-resolution core of the
    simulation: [mechanics/honour.py], [mechanics/combat.py],
    [agents/base_agent.py], [agents/predator.py],
    [agents/qlearning_predator.py], [agents/adversary.py],
    [agents/adaptive_adversary.py] and the parts of
    [environment/grid.py] they call.

    Conventions of the embedding.
    - Python [int] is [Z]; Python [float] is an exact rational [Q], and
      [int(x)] on a float is truncation toward zero ([py_int]).
    - A class is a record; a subclass nests the record of its parent
      (field [super_...]); [Agent] is the sum of the concrete classes and
      [class_name] is [__class__.__name__].
    - A method that mutates [self] returns the new [self]; a [print] is an
      [Event] appended to the returned trace.
    - Draws from [random] are explicit arguments.
    - A raised exception is [None].
    - The grid keeps its size, its wrapping setting, its obstacle cells
      and its roster; the occupant list of each cell, which no decision
      reads, is left out, as are the attributes of [Wildlife] and
      [Synthetic] that only their own movement uses.  The constants of
      [config/settings.py] are fields of the grid and arguments of the
      constructors. *)

From Stdlib Require Import ZArith QArith Qround Qminmax Qpower List String Bool Lia Lqa.
Import ListNotations.
Open Scope string_scope.
Open Scope list_scope.
Open Scope Z_scope.

(** ** Numbers *)

(** [int(x)] for a float [x]: truncation toward zero. *)
Definition py_int (x : Q) : Z := Z.quot (Qnum x) (Zpos (Qden x)).

Definition Qlt_bool (x y : Q) : bool := negb (Qle_bool y x).

(** Python's builtin [max(a, b)] / [min(a, b)] on floats: the first
    argument unless the second is strictly larger / smaller. *)
Definition py_maxQ (a b : Q) : Q := if Qlt_bool a b then b else a.
Definition py_minQ (a b : Q) : Q := if Qlt_bool b a then b else a.

Definition Pos : Type := Z * Z.

Definition pos_eqb (p q : Pos) : bool :=
  (fst p =? fst q) && (snd p =? snd q).

Definition _manhattan_distance (pos1 pos2 : Pos) : Z :=
  Z.abs (fst pos1 - fst pos2) + Z.abs (snd pos1 - snd pos2).

(** ** The class hierarchy *)

Record BaseAgent := mkBaseAgent {
  name : string;
  position : Pos;
  health : Z;
  max_health : Z;
  is_alive : bool
}.

Record Predator := mkPredator {
  super_predator : BaseAgent;
  stamina : Z;
  max_stamina : Z;
  honour : Z;
  is_dek : bool;
  clan_rank : string;
  trophies : list string;
  carrying_thia : bool
}.

Record QLearningPredator := mkQLearningPredator {
  super_qlearning : Predator;
  learning_rate : Q;
  discount_factor : Q;
  epsilon : Q;
  q_table : list (string * list (string * Q));
  last_state : option string;
  last_action : option string;
  last_honour : Z;
  total_rewards : Q;
  actions_taken : Z;
  exploration_count : Z;
  exploitation_count : Z
}.

Inductive MovementPattern := patrol | chase | defend.

Record Adversary := mkAdversary {
  super_adversary : BaseAgent;
  threat_radius : Z;
  territory_center : Pos;
  aggression_level : Z;
  attack_power : Z;
  defended_successfully : Z;
  times_attacked : Z;
  movement_pattern : MovementPattern;
  patrol_route : list Pos;
  current_patrol_index : nat
}.

(** One entry of [attack_pattern_memory] (a dict with these three keys). *)
Record AttackRecord := mkAttackRecord {
  damage : Z;
  health_after : Z;
  retreated : bool
}.

Record DetectedPatterns := mkDetectedPatterns {
  circle_strategy : Z;
  hit_and_run : Z;
  frontal_assault : Z;
  cautious_approach : Z
}.

Record Abilities := mkAbilities {
  berserker_rage : bool;
  predictive_movement : bool;
  area_denial : bool;
  adaptive_armor : bool
}.

(** The direction strings ['N'], ['S'], ['E'], ['W'], ['NE'], ['NW'],
    ['SE'], ['SW']. *)
Inductive Direction := dN | dS | dE | dW | dNE | dNW | dSE | dSW.

Record AdaptiveAdversary := mkAdaptiveAdversary {
  super_adaptive : Adversary;
  attack_pattern_memory : list AttackRecord;      (* deque(maxlen=20) *)
  predator_position_history : list Pos;           (* deque(maxlen=30) *)
  successful_defenses : Z;
  failed_defenses : Z;
  preferred_attack_direction : option Direction;
  learned_retreat_threshold : Z;
  chase_aggressiveness : Q;
  detected_patterns : DetectedPatterns;
  abilities_unlocked : Abilities;
  total_damage_received : Z;
  combat_encounters : Z
}.

Record Wildlife := mkWildlife {
  super_wildlife : BaseAgent;
  threat_level : Z;
  is_hostile : bool;
  wildlife_attack_power : Z;
  flee_threshold : Z
}.

Record Synthetic := mkSynthetic {
  super_synthetic : BaseAgent;
  is_damaged : bool;
  being_carried : bool
}.

Inductive Agent :=
| APredator (p : Predator)
| AQLearningPredator (q : QLearningPredator)
| AAdversary (a : Adversary)
| AAdaptiveAdversary (a : AdaptiveAdversary)
| AWildlife (w : Wildlife)
| ASynthetic (s : Synthetic).

(** [agent.__class__.__name__] *)
Definition class_name (a : Agent) : string :=
  match a with
  | APredator _ => "Predator"
  | AQLearningPredator _ => "QLearningPredator"
  | AAdversary _ => "Adversary"
  | AAdaptiveAdversary _ => "AdaptiveAdversary"
  | AWildlife _ => "Wildlife"
  | ASynthetic _ => "Synthetic"
  end.

Definition agent_base (a : Agent) : BaseAgent :=
  match a with
  | APredator p => super_predator p
  | AQLearningPredator q => super_predator (super_qlearning q)
  | AAdversary a => super_adversary a
  | AAdaptiveAdversary a => super_adversary (super_adaptive a)
  | AWildlife w => super_wildlife w
  | ASynthetic s => super_synthetic s
  end.

(** The [Predator] part of an agent: present exactly when the object has
    the attributes [stamina], [honour], [trophies], [carrying_thia]. *)
Definition as_predator (a : Agent) : option Predator :=
  match a with
  | APredator p => Some p
  | AQLearningPredator q => Some (super_qlearning q)
  | _ => None
  end.

(** ** Attribute assignment *)

Definition set_position (v : Pos) (b : BaseAgent) : BaseAgent :=
  mkBaseAgent (name b) v (health b) (max_health b) (is_alive b).
Definition set_health (v : Z) (b : BaseAgent) : BaseAgent :=
  mkBaseAgent (name b) (position b) v (max_health b) (is_alive b).
Definition set_is_alive (v : bool) (b : BaseAgent) : BaseAgent :=
  mkBaseAgent (name b) (position b) (health b) (max_health b) v.

Definition set_super_predator (v : BaseAgent) (p : Predator) : Predator :=
  mkPredator v (stamina p) (max_stamina p) (honour p) (is_dek p)
             (clan_rank p) (trophies p) (carrying_thia p).
Definition set_stamina (v : Z) (p : Predator) : Predator :=
  mkPredator (super_predator p) v (max_stamina p) (honour p) (is_dek p)
             (clan_rank p) (trophies p) (carrying_thia p).
Definition set_honour (v : Z) (p : Predator) : Predator :=
  mkPredator (super_predator p) (stamina p) (max_stamina p) v (is_dek p)
             (clan_rank p) (trophies p) (carrying_thia p).
Definition set_trophies (v : list string) (p : Predator) : Predator :=
  mkPredator (super_predator p) (stamina p) (max_stamina p) (honour p)
             (is_dek p) (clan_rank p) v (carrying_thia p).

Definition set_super_qlearning (v : Predator) (q : QLearningPredator)
  : QLearningPredator :=
  mkQLearningPredator v (learning_rate q) (discount_factor q) (epsilon q)
    (q_table q) (last_state q) (last_action q) (last_honour q)
    (total_rewards q) (actions_taken q) (exploration_count q)
    (exploitation_count q).
Definition set_epsilon (v : Q) (q : QLearningPredator) : QLearningPredator :=
  mkQLearningPredator (super_qlearning q) (learning_rate q)
    (discount_factor q) v (q_table q) (last_state q) (last_action q)
    (last_honour q) (total_rewards q) (actions_taken q)
    (exploration_count q) (exploitation_count q).

Definition set_q_table (v : list (string * list (string * Q)))
    (q : QLearningPredator) : QLearningPredator :=
  mkQLearningPredator (super_qlearning q) (learning_rate q)
    (discount_factor q) (epsilon q) v (last_state q) (last_action q)
    (last_honour q) (total_rewards q) (actions_taken q)
    (exploration_count q) (exploitation_count q).
Definition set_last_state (v : option string) (q : QLearningPredator)
  : QLearningPredator :=
  mkQLearningPredator (super_qlearning q) (learning_rate q)
    (discount_factor q) (epsilon q) (q_table q) v (last_action q)
    (last_honour q) (total_rewards q) (actions_taken q)
    (exploration_count q) (exploitation_count q).
Definition set_last_action (v : option string) (q : QLearningPredator)
  : QLearningPredator :=
  mkQLearningPredator (super_qlearning q) (learning_rate q)
    (discount_factor q) (epsilon q) (q_table q) (last_state q) v
    (last_honour q) (total_rewards q) (actions_taken q)
    (exploration_count q) (exploitation_count q).
Definition set_last_honour (v : Z) (q : QLearningPredator)
  : QLearningPredator :=
  mkQLearningPredator (super_qlearning q) (learning_rate q)
    (discount_factor q) (epsilon q) (q_table q) (last_state q)
    (last_action q) v (total_rewards q) (actions_taken q)
    (exploration_count q) (exploitation_count q).
Definition set_total_rewards (v : Q) (q : QLearningPredator)
  : QLearningPredator :=
  mkQLearningPredator (super_qlearning q) (learning_rate q)
    (discount_factor q) (epsilon q) (q_table q) (last_state q)
    (last_action q) (last_honour q) v (actions_taken q)
    (exploration_count q) (exploitation_count q).
Definition set_actions_taken (v : Z) (q : QLearningPredator)
  : QLearningPredator :=
  mkQLearningPredator (super_qlearning q) (learning_rate q)
    (discount_factor q) (epsilon q) (q_table q) (last_state q)
    (last_action q) (last_honour q) (total_rewards q) v
    (exploration_count q) (exploitation_count q).
Definition set_exploration_count (v : Z) (q : QLearningPredator)
  : QLearningPredator :=
  mkQLearningPredator (super_qlearning q) (learning_rate q)
    (discount_factor q) (epsilon q) (q_table q) (last_state q)
    (last_action q) (last_honour q) (total_rewards q) (actions_taken q)
    v (exploitation_count q).
Definition set_exploitation_count (v : Z) (q : QLearningPredator)
  : QLearningPredator :=
  mkQLearningPredator (super_qlearning q) (learning_rate q)
    (discount_factor q) (epsilon q) (q_table q) (last_state q)
    (last_action q) (last_honour q) (total_rewards q) (actions_taken q)
    (exploration_count q) v.

(** Assignment to an attribute of the [Predator] part of an object. *)
Definition with_predator (f : Predator -> Predator) (a : Agent) : Agent :=
  match a with
  | APredator p => APredator (f p)
  | AQLearningPredator q =>
      AQLearningPredator (set_super_qlearning (f (super_qlearning q)) q)
  | other => other
  end.

(** ** Console output *)

Inductive Event :=
| EvRankUp (who rank : string)
| EvRankDown (who rank : string)
| EvHonour (who : string) (change total : Z) (rank : string)
| EvAttack (attacker defender : string) (dmg : Z) (critical : bool)
| EvDefeated (defender : string)
| EvTrophy (attacker defender : string)
| EvUltimateTrophy (attacker defender : string)
| EvUnlocked (who ability : string)
| EvDetectedCircling (who : string)
| EvDetectedHitAndRun (who : string)
| EvIntercepting (who : string)
| EvZoneControl (who : string)
| EvBerserker (who : string)
| EvPredictiveStrike (who : string)
| EvWounded (who : string) (hp maxhp : Z)
| EvBeastDefeated (who : string)
| EvArmorMitigates (who : string) (amount : Z)
| EvRoars (who target : string) (dmg : Z)
| EvFallen (who target : string).

(** ** mechanics/honour.py *)

Module HonourSystem.

Definition RANKS : list (string * Z) :=
  [("Unblooded", 0); ("Blooded", 30); ("Honoured", 60);
   ("Elite", 100); ("Ancient", 150)].

Definition HONOUR_VALUES : list (string * Z) :=
  [("hunt_worthy_prey", 15); ("hunt_unworthy_prey", -30);
   ("defeat_adversary", 100); ("successful_challenge", 10);
   ("failed_challenge", -5); ("retreat_from_combat", -10);
   ("help_wounded", 5); ("trophy_collected", 10);
   ("dishonourable_kill", -50); ("win_clan_challenge", 15);
   ("lose_clan_challenge", -5); ("spare_worthy_opponent", 20);
   ("fight_alongside_ally", 5)].

(** [d.get(key, default)] on a dict given by its items. *)
Fixpoint dict_get (d : list (string * Z)) (key : string) (default : Z) : Z :=
  match d with
  | [] => default
  | (k, v) :: rest => if String.eqb k key then v else dict_get rest key default
  end.

(** The [context] dict; the three keys the code reads, each optional. *)
Record Context := mkContext {
  ctx_target : option Agent;
  ctx_health : option Z;
  ctx_opponent_honour : option Z
}.

(** Truth value of the dict: it has at least one key. *)
Definition context_nonempty (c : Context) : bool :=
  match ctx_target c, ctx_health c, ctx_opponent_honour c with
  | None, None, None => false
  | _, _, _ => true
  end.

Definition get_or {A} (o : option A) (default : A) : A :=
  match o with Some v => v | None => default end.

Definition _apply_context (base_honour : Z) (action : string) (context : Context)
  : Z :=
  let honour := base_honour in
  match (if String.eqb action "hunt_worthy_prey" then ctx_target context
         else None) with
  | Some target =>
      match target with
      | AWildlife w =>
          if 1 <=? threat_level w then 15 + threat_level w * 5 else -30
      | AAdversary _ | AAdaptiveAdversary _ => 100
      | _ => 15
      end
  | None =>
      let honour :=
        if String.eqb action "retreat_from_combat" then
          if get_or (ctx_health context) 100 <? 20
          then py_int (inject_Z honour * (1 # 2)) else honour
        else honour in
      let honour :=
        if String.eqb action "successful_challenge"
           || String.eqb action "failed_challenge" then
          if 70 <? get_or (ctx_opponent_honour context) 50
          then py_int (inject_Z honour * (3 # 2)) else honour
        else honour in
      honour
  end.

Definition get_rank (honour : Z) : string :=
  match find (fun rank => snd rank <=? honour) (rev RANKS) with
  | Some (rank, _) => rank
  | None => "Unblooded"
  end.

(** [RANKS[rank]] for a rank name produced by [get_rank]. *)
Definition rank_threshold (rank : string) : Z := dict_get RANKS rank 0.

Definition _announce_rank_change (predator : Predator) (old_rank new_rank : string)
  : list Event :=
  if rank_threshold old_rank <? rank_threshold new_rank
  then [EvRankUp (name (super_predator predator)) new_rank]
  else [EvRankDown (name (super_predator predator)) new_rank].

(** Returns the mutated object, the value returned ([honour_change]) and
    the output. *)
Definition update_honour (predator : Agent) (action : string)
    (context : option Context) : Agent * Z * list Event :=
  match as_predator predator with
  | None => (predator, 0, [])
  | Some p =>
      let honour_change := dict_get HONOUR_VALUES action 0 in
      let honour_change :=
        match context with
        | Some c =>
            if context_nonempty c then _apply_context honour_change action c
            else honour_change
        | None => honour_change
        end in
      let old_honour := honour p in
      let new_honour := Z.max 0 (honour p + honour_change) in
      let p' := set_honour new_honour p in
      let old_rank := get_rank old_honour in
      let new_rank := get_rank new_honour in
      let out1 :=
        if String.eqb new_rank old_rank then []
        else _announce_rank_change p' old_rank new_rank in
      let out2 :=
        if honour_change =? 0 then []
        else [EvHonour (name (super_predator p')) honour_change new_honour
                new_rank] in
      (with_predator (fun _ => p') predator, honour_change, out1 ++ out2)
  end.

Definition check_clan_acceptance (predator : Predator)
    (clan_honour_requirement : Z) : bool :=
  clan_honour_requirement <=? honour predator.

(** The dict [get_honour_summary] returns. *)
Record HonourSummary := mkHonourSummary {
  current_honour : Z;
  rank : string;
  next_rank_threshold : option Z;
  honour_needed : Z;
  clan_acceptance : bool
}.

(** The next threshold is the first of the table, in its order, above
    the honour; the test [if next_rank_threshold:] is false for [None]
    and for 0. *)
Definition get_honour_summary (predator : Predator) : HonourSummary :=
  let rank := get_rank (honour predator) in
  let next_rank_threshold :=
    match find (fun r => honour predator <? snd r) RANKS with
    | Some (_, threshold) => Some threshold
    | None => None
    end in
  let needed :=
    match next_rank_threshold with
    | Some threshold =>
        if threshold =? 0 then 0 else threshold - honour predator
    | None => 0
    end in
  mkHonourSummary (honour predator) rank next_rank_threshold needed
    (check_clan_acceptance predator 50).

End HonourSystem.

(** ** Attribute assignment, adversaries *)

Definition set_super_adversary (v : BaseAgent) (a : Adversary) : Adversary :=
  mkAdversary v (threat_radius a) (territory_center a) (aggression_level a)
    (attack_power a) (defended_successfully a) (times_attacked a)
    (movement_pattern a) (patrol_route a) (current_patrol_index a).
Definition set_threat_radius (v : Z) (a : Adversary) : Adversary :=
  mkAdversary (super_adversary a) v (territory_center a) (aggression_level a)
    (attack_power a) (defended_successfully a) (times_attacked a)
    (movement_pattern a) (patrol_route a) (current_patrol_index a).
Definition set_aggression_level (v : Z) (a : Adversary) : Adversary :=
  mkAdversary (super_adversary a) (threat_radius a) (territory_center a) v
    (attack_power a) (defended_successfully a) (times_attacked a)
    (movement_pattern a) (patrol_route a) (current_patrol_index a).
Definition set_attack_power (v : Z) (a : Adversary) : Adversary :=
  mkAdversary (super_adversary a) (threat_radius a) (territory_center a)
    (aggression_level a) v (defended_successfully a) (times_attacked a)
    (movement_pattern a) (patrol_route a) (current_patrol_index a).
Definition set_defended_successfully (v : Z) (a : Adversary) : Adversary :=
  mkAdversary (super_adversary a) (threat_radius a) (territory_center a)
    (aggression_level a) (attack_power a) v (times_attacked a)
    (movement_pattern a) (patrol_route a) (current_patrol_index a).
Definition set_times_attacked (v : Z) (a : Adversary) : Adversary :=
  mkAdversary (super_adversary a) (threat_radius a) (territory_center a)
    (aggression_level a) (attack_power a) (defended_successfully a) v
    (movement_pattern a) (patrol_route a) (current_patrol_index a).
Definition set_movement_pattern (v : MovementPattern) (a : Adversary)
  : Adversary :=
  mkAdversary (super_adversary a) (threat_radius a) (territory_center a)
    (aggression_level a) (attack_power a) (defended_successfully a)
    (times_attacked a) v (patrol_route a) (current_patrol_index a).
Definition set_current_patrol_index (v : nat) (a : Adversary) : Adversary :=
  mkAdversary (super_adversary a) (threat_radius a) (territory_center a)
    (aggression_level a) (attack_power a) (defended_successfully a)
    (times_attacked a) (movement_pattern a) (patrol_route a) v.

Definition set_super_adaptive (v : Adversary) (a : AdaptiveAdversary)
  : AdaptiveAdversary :=
  mkAdaptiveAdversary v (attack_pattern_memory a)
    (predator_position_history a) (successful_defenses a) (failed_defenses a)
    (preferred_attack_direction a) (learned_retreat_threshold a)
    (chase_aggressiveness a) (detected_patterns a) (abilities_unlocked a)
    (total_damage_received a) (combat_encounters a).
Definition set_attack_pattern_memory (v : list AttackRecord)
    (a : AdaptiveAdversary) : AdaptiveAdversary :=
  mkAdaptiveAdversary (super_adaptive a) v
    (predator_position_history a) (successful_defenses a) (failed_defenses a)
    (preferred_attack_direction a) (learned_retreat_threshold a)
    (chase_aggressiveness a) (detected_patterns a) (abilities_unlocked a)
    (total_damage_received a) (combat_encounters a).
Definition set_predator_position_history (v : list Pos)
    (a : AdaptiveAdversary) : AdaptiveAdversary :=
  mkAdaptiveAdversary (super_adaptive a) (attack_pattern_memory a) v
    (successful_defenses a) (failed_defenses a)
    (preferred_attack_direction a) (learned_retreat_threshold a)
    (chase_aggressiveness a) (detected_patterns a) (abilities_unlocked a)
    (total_damage_received a) (combat_encounters a).
Definition set_chase_aggressiveness (v : Q) (a : AdaptiveAdversary)
  : AdaptiveAdversary :=
  mkAdaptiveAdversary (super_adaptive a) (attack_pattern_memory a)
    (predator_position_history a) (successful_defenses a) (failed_defenses a)
    (preferred_attack_direction a) (learned_retreat_threshold a)
    v (detected_patterns a) (abilities_unlocked a)
    (total_damage_received a) (combat_encounters a).
Definition set_detected_patterns (v : DetectedPatterns)
    (a : AdaptiveAdversary) : AdaptiveAdversary :=
  mkAdaptiveAdversary (super_adaptive a) (attack_pattern_memory a)
    (predator_position_history a) (successful_defenses a) (failed_defenses a)
    (preferred_attack_direction a) (learned_retreat_threshold a)
    (chase_aggressiveness a) v (abilities_unlocked a)
    (total_damage_received a) (combat_encounters a).
Definition set_abilities_unlocked (v : Abilities) (a : AdaptiveAdversary)
  : AdaptiveAdversary :=
  mkAdaptiveAdversary (super_adaptive a) (attack_pattern_memory a)
    (predator_position_history a) (successful_defenses a) (failed_defenses a)
    (preferred_attack_direction a) (learned_retreat_threshold a)
    (chase_aggressiveness a) (detected_patterns a) v
    (total_damage_received a) (combat_encounters a).
Definition set_total_damage_received (v : Z) (a : AdaptiveAdversary)
  : AdaptiveAdversary :=
  mkAdaptiveAdversary (super_adaptive a) (attack_pattern_memory a)
    (predator_position_history a) (successful_defenses a) (failed_defenses a)
    (preferred_attack_direction a) (learned_retreat_threshold a)
    (chase_aggressiveness a) (detected_patterns a) (abilities_unlocked a)
    v (combat_encounters a).
Definition set_combat_encounters (v : Z) (a : AdaptiveAdversary)
  : AdaptiveAdversary :=
  mkAdaptiveAdversary (super_adaptive a) (attack_pattern_memory a)
    (predator_position_history a) (successful_defenses a) (failed_defenses a)
    (preferred_attack_direction a) (learned_retreat_threshold a)
    (chase_aggressiveness a) (detected_patterns a) (abilities_unlocked a)
    (total_damage_received a) v.

(** The [BaseAgent] part of an adaptive adversary and assignment to it. *)
Definition adaptive_base (a : AdaptiveAdversary) : BaseAgent :=
  super_adversary (super_adaptive a).
Definition with_adversary (f : Adversary -> Adversary) (a : AdaptiveAdversary)
  : AdaptiveAdversary := set_super_adaptive (f (super_adaptive a)) a.
Definition with_adaptive_base (f : BaseAgent -> BaseAgent)
    (a : AdaptiveAdversary) : AdaptiveAdversary :=
  with_adversary (fun adv => set_super_adversary (f (super_adversary adv)) adv) a.

(** [collections.deque(maxlen=n).append(x)]: the oldest entry is dropped
    when the deque is full. *)
Definition deque_append {A} (maxlen : nat) (x : A) (d : list A) : list A :=
  let d' := d ++ [x] in
  skipn (List.length d' - maxlen)%nat d'.

(** [list(d)[-n:]] *)
Definition last_n {A} (n : nat) (l : list A) : list A :=
  skipn (List.length l - n)%nat l.

(** ** agents/base_agent.py *)

Module BaseAgent.

Definition take_damage (damage : Z) (self : BaseAgent) : BaseAgent :=
  let self := set_health (health self - damage) self in
  if health self <=? 0 then set_is_alive false (set_health 0 self) else self.

Definition heal (amount : Z) (self : BaseAgent) : BaseAgent :=
  set_health (Z.min (health self + amount) (max_health self)) self.

Definition move_to (new_position : Pos) (self : BaseAgent) : BaseAgent :=
  set_position new_position self.

End BaseAgent.

(** ** environment/grid.py *)

(** The grid as the agents see it: its size, the [WRAPPING_ENABLED]
    setting it was built with, the cells whose terrain is ['obstacle'],
    and the roster. *)
Record Grid := mkGrid {
  width : Z;
  height : Z;
  wrapping : bool;
  obstacles : list Pos;
  agents : list Agent;
  turn_count : Z
}.

(** [a % b]; [ZeroDivisionError] when [b] is 0. *)
Definition py_mod (a b : Z) : option Z :=
  if b =? 0 then None else Some (a mod b).

Module Grid.

Definition in_bounds (self : Grid) (x y : Z) : bool :=
  (0 <=? x) && (x <? width self) && (0 <=? y) && (y <? height self).

Definition wrap_if_enabled (self : Grid) (position : Pos) : option Pos :=
  let '(x, y) := position in
  if wrapping self then
    match py_mod x (width self), py_mod y (height self) with
    | Some x', Some y' => Some (x', y')
    | _, _ => None
    end
  else Some (x, y).

Definition is_valid_position (self : Grid) (position : Pos) : option bool :=
  match wrap_if_enabled self position with
  | None => None
  | Some (x, y) =>
      if negb (in_bounds self x y) then Some false
      else Some (negb (existsb (pos_eqb (x, y)) (obstacles self)))
  end.

(** The effect of [move_agent] on the agent that is moved. *)
Definition move_agent (self : Grid) (agent : BaseAgent) (new_position : Pos)
  : option BaseAgent :=
  match wrap_if_enabled self new_position with
  | None => None
  | Some (new_x, new_y) =>
      if negb (in_bounds self new_x new_y) then Some agent
      else Some (BaseAgent.move_to (new_x, new_y) agent)
  end.

Definition get_adversary_position (self : Grid) : option Pos :=
  match find (fun agent => String.eqb (class_name agent) "Adversary")
             (agents self) with
  | Some agent => Some (position (agent_base agent))
  | None => None
  end.

End Grid.

(** The action dicts returned by [decide_action]. *)
Inductive Action :=
| Move (direction : Direction)
| Attack (target : Agent)
| Rest
| Challenge.

(** The draws a decision may take from [random]: the index picked by
    [random.choice], the float of [random.random()] and the integer of
    [random.randint]; the two integers are reduced into the range the
    library call guarantees. *)
Record Random := mkRandom {
  draw_choice : nat;
  draw_random : Q;
  draw_randint : nat
}.

(** [random.choice(l)]; [IndexError] on an empty list. *)
Definition random_choice {A} (l : list A) (r : nat) : option A :=
  nth_error l (r mod List.length l)%nat.

(** [min(items, key=key)] on the non-empty list [first :: rest]: the
    first item whose key is minimal. *)
Fixpoint py_min_by {A} (key : A -> Z) (first : A) (rest : list A) : A :=
  match rest with
  | [] => first
  | x :: rest' =>
      if key x <? key first then py_min_by key x rest'
      else py_min_by key first rest'
  end.

(** ** agents/adversary.py *)

Module Adversary.

Definition _generate_patrol_route (territory_center : Pos) : list Pos :=
  let '(cx, cy) := territory_center in
  [(cx - 2, cy - 2); (cx + 2, cy - 2); (cx + 2, cy + 2); (cx - 2, cy + 2)].

Definition __init__ (name : string) (position : Pos) (health threat_radius : Z)
  : Adversary :=
  mkAdversary (mkBaseAgent name position health health true)
    threat_radius position 5 30 0 0 patrol
    (_generate_patrol_route position) 0%nat.

Definition _calculate_direction (from_pos to_pos : Pos) : Direction :=
  let '(fx, fy) := from_pos in
  let '(tx, ty) := to_pos in
  let dx := tx - fx in
  let dy := ty - fy in
  if Z.abs dy <? Z.abs dx then (if 0 <? dx then dE else dW)
  else if Z.abs dx <? Z.abs dy then (if 0 <? dy then dS else dN)
  else if (0 <? dx) && (0 <? dy) then dSE
  else if (0 <? dx) && (dy <? 0) then dNE
  else if (dx <? 0) && (0 <? dy) then dSW
  else dNW.

(** The agents of class exactly [Predator] in the roster. *)
Fixpoint predators_of (roster : list Agent) : list Predator :=
  match roster with
  | [] => []
  | APredator p :: rest => p :: predators_of rest
  | _ :: rest => predators_of rest
  end.

Definition _find_nearest_predator (self : Adversary) (environment : Grid)
  : option Predator :=
  match predators_of (agents environment) with
  | [] => None
  | p :: rest =>
      Some (py_min_by
              (fun p => _manhattan_distance (position (super_adversary self))
                          (position (super_predator p)))
              p rest)
  end.

(** The cell one step away in [direction]. *)
Definition moves (pos : Pos) (direction : Direction) : Pos :=
  let '(x, y) := pos in
  match direction with
  | dN => (x, y - 1)
  | dS => (x, y + 1)
  | dE => (x + 1, y)
  | dW => (x - 1, y)
  | dNE => (x + 1, y - 1)
  | dNW => (x - 1, y - 1)
  | dSE => (x + 1, y + 1)
  | dSW => (x - 1, y + 1)
  end.

Definition _execute_move (direction : Direction) (environment : Grid)
    (self : Adversary) : option Adversary :=
  let new_pos := moves (position (super_adversary self)) direction in
  match py_mod (fst new_pos) (width environment),
        py_mod (snd new_pos) (height environment) with
  | Some wrapped_x, Some wrapped_y =>
      let wrapped_pos := (wrapped_x, wrapped_y) in
      match Grid.is_valid_position environment wrapped_pos with
      | None => None
      | Some true =>
          match Grid.move_agent environment (super_adversary self) wrapped_pos with
          | Some base => Some (set_super_adversary base self)
          | None => None
          end
      | Some false => Some self
      end
  | _, _ => None
  end.

Definition take_damage (damage : Z) (self : Adversary)
  : Adversary * list Event :=
  let self := set_super_adversary
                (BaseAgent.take_damage damage (super_adversary self)) self in
  let self := set_times_attacked (times_attacked self + 1) self in
  if is_alive (super_adversary self) then
    let self := set_defended_successfully (defended_successfully self + 1) self in
    let self := set_aggression_level (Z.min 10 (aggression_level self + 1)) self in
    let self := set_threat_radius (Z.min 10 (threat_radius self + 1)) self in
    (self, [EvWounded (name (super_adversary self))
              (health (super_adversary self))
              (max_health (super_adversary self))])
  else (self, [EvBeastDefeated (name (super_adversary self))]).

End Adversary.

(** ** agents/adaptive_adversary.py *)

Definition sumZ (l : list Z) : Z := fold_left Z.add l 0.
Definition sumQ (l : list Q) : Q := fold_left Qplus l (0 # 1).

Module AdaptiveAdversary.

Definition __init__ (name : string) (position : Pos) (health threat_radius : Z)
  : AdaptiveAdversary :=
  mkAdaptiveAdversary (Adversary.__init__ name position health threat_radius)
    [] [] 0 0 None 100 1
    (mkDetectedPatterns 0 0 0 0)
    (mkAbilities false false false false)
    0 0.

Definition self_name (self : AdaptiveAdversary) : string :=
  name (adaptive_base self).
Definition self_position (self : AdaptiveAdversary) : Pos :=
  position (adaptive_base self).

Definition _update_combat_intelligence (self : AdaptiveAdversary)
  : AdaptiveAdversary * list Event :=
  let attacked := times_attacked (super_adaptive self) in
  let '(self, out1) :=
    if (10 <=? attacked) && negb (berserker_rage (abilities_unlocked self))
    then
      let ab := abilities_unlocked self in
      (set_abilities_unlocked
         (mkAbilities true (predictive_movement ab) (area_denial ab)
            (adaptive_armor ab)) self,
       [EvUnlocked (self_name self) "Berserker Rage"])
    else (self, []) in
  let '(self, out2) :=
    if (15 <=? attacked) && negb (predictive_movement (abilities_unlocked self))
    then
      let ab := abilities_unlocked self in
      (set_abilities_unlocked
         (mkAbilities (berserker_rage ab) true (area_denial ab)
            (adaptive_armor ab)) self,
       [EvUnlocked (self_name self) "Predictive Movement"])
    else (self, []) in
  let '(self, out3) :=
    if (20 <=? attacked) && negb (area_denial (abilities_unlocked self))
    then
      let ab := abilities_unlocked self in
      let self :=
        set_abilities_unlocked
          (mkAbilities (berserker_rage ab) (predictive_movement ab) true
             (adaptive_armor ab)) self in
      (with_adversary (fun a => set_threat_radius (threat_radius a + 3) a) self,
       [EvUnlocked (self_name self) "Area Denial"])
    else (self, []) in
  let '(self, out4) :=
    if (200 <=? total_damage_received self)
       && negb (adaptive_armor (abilities_unlocked self))
    then
      let ab := abilities_unlocked self in
      (set_abilities_unlocked
         (mkAbilities (berserker_rage ab) (predictive_movement ab)
            (area_denial ab) true) self,
       [EvUnlocked (self_name self) "Adaptive Armor"])
    else (self, []) in
  let self :=
    if 5 <? attacked then
      let success_rate :=
        (inject_Z (defended_successfully (super_adaptive self))
         / inject_Z attacked)%Q in
      if Qlt_bool (7 # 10) success_rate then
        set_chase_aggressiveness
          (py_minQ (3 # 2) (chase_aggressiveness self + (1 # 10))) self
      else if Qlt_bool success_rate (3 # 10) then
        set_chase_aggressiveness
          (py_maxQ (7 # 10) (chase_aggressiveness self - (1 # 10))) self
      else self
    else self in
  (self, out1 ++ out2 ++ out3 ++ out4).

(** The two statistics [_detect_circle_strategy] computes over the
    distances to the recent positions. *)
Definition avg_distance (distances : list Z) : Q :=
  (inject_Z (sumZ distances) / inject_Z (Z.of_nat (List.length distances)))%Q.

Definition distance_variance (distances : list Z) : Q :=
  let avg := avg_distance distances in
  (sumQ (map (fun d => (inject_Z d - avg) ^ 2) distances)
   / inject_Z (Z.of_nat (List.length distances)))%Q.

(** The distances from the adversary's own position to the last 10
    recorded predator positions. *)
Definition recent_distances (self : AdaptiveAdversary) : list Z :=
  map (_manhattan_distance (self_position self))
      (last_n 10 (predator_position_history self)).

(** The test "low variance + medium distance". *)
Definition circling (distances : list Z) : bool :=
  Qlt_bool (distance_variance distances) (4 # 1)
  && Qlt_bool (3 # 1) (avg_distance distances)
  && Qlt_bool (avg_distance distances) (7 # 1).

Definition bump_circle_strategy (self : AdaptiveAdversary) : AdaptiveAdversary :=
  let dp := detected_patterns self in
  set_detected_patterns
    (mkDetectedPatterns (circle_strategy dp + 1) (hit_and_run dp)
       (frontal_assault dp) (cautious_approach dp)) self.

Definition bump_hit_and_run (self : AdaptiveAdversary) : AdaptiveAdversary :=
  let dp := detected_patterns self in
  set_detected_patterns
    (mkDetectedPatterns (circle_strategy dp) (hit_and_run dp + 1)
       (frontal_assault dp) (cautious_approach dp)) self.

Definition _detect_circle_strategy (self : AdaptiveAdversary)
  : bool * AdaptiveAdversary * list Event :=
  if (List.length (predator_position_history self) <? 10)%nat
  then (false, self, [])
  else if circling (recent_distances self) then
    let self := bump_circle_strategy self in
    if 3 <=? circle_strategy (detected_patterns self)
    then (true, self, [EvDetectedCircling (self_name self)])
    else (false, self, [])
  else (false, self, []).

Definition _detect_hit_and_run (self : AdaptiveAdversary)
  : bool * AdaptiveAdversary * list Event :=
  if (List.length (attack_pattern_memory self) <? 5)%nat
  then (false, self, [])
  else
    let recent_attacks := last_n 5 (attack_pattern_memory self) in
    let retreat_count := Z.of_nat (List.length (filter retreated recent_attacks)) in
    if 3 <=? retreat_count then
      let self := bump_hit_and_run self in
      if 2 <=? hit_and_run (detected_patterns self)
      then (true, self, [EvDetectedHitAndRun (self_name self)])
      else (false, self, [])
    else (false, self, []).

(** [target_position] is [target.position], the only attribute of
    [target] the method reads. *)
Definition _predict_next_position (self : AdaptiveAdversary)
    (target_position : Pos) : option Pos :=
  if (List.length (predator_position_history self) <? 3)%nat then None
  else
    match last_n 3 (predator_position_history self) with
    | [third_last; _; most_recent] =>
        let dx := fst most_recent - fst third_last in
        let dy := snd most_recent - snd third_last in
        Some (fst target_position + dx, snd target_position + dy)
    | _ => None
    end.

Definition _counter_circle_strategy (self : AdaptiveAdversary)
    (target : Predator) : Action * AdaptiveAdversary * list Event :=
  match _predict_next_position self (position (super_predator target)) with
  | Some predicted_pos =>
      (Move (Adversary._calculate_direction (self_position self) predicted_pos),
       self, [EvIntercepting (self_name self)])
  | None =>
      (Move (Adversary._calculate_direction (self_position self)
               (position (super_predator target))), self, [])
  end.

Definition _calculate_aggressive_direction (from_pos to_pos : Pos) : Direction :=
  let '(fx, fy) := from_pos in
  let '(tx, ty) := to_pos in
  let dx := tx - fx in
  let dy := ty - fy in
  if (0 <? Z.abs dx) && (0 <? Z.abs dy) then
    if (0 <? dx) && (0 <? dy) then dSE
    else if (0 <? dx) && (dy <? 0) then dNE
    else if (dx <? 0) && (0 <? dy) then dSW
    else dNW
  else Adversary._calculate_direction from_pos to_pos.

Definition _counter_hit_and_run (self : AdaptiveAdversary) (target : Predator)
  : Action * AdaptiveAdversary * list Event :=
  let self :=
    with_adversary (fun a => set_threat_radius (Z.min 15 (threat_radius a + 2)) a)
      self in
  let out := [EvZoneControl (self_name self)] in
  if _manhattan_distance (self_position self) (position (super_predator target))
     <=? 2
  then (Attack (APredator target), self, out)
  else (Move (_calculate_aggressive_direction (self_position self)
                (position (super_predator target))), self, out).

Definition _execute_berserker_rage (self : AdaptiveAdversary) (target : Predator)
  : Action * AdaptiveAdversary * list Event :=
  let out := [EvBerserker (self_name self)] in
  let self :=
    with_adversary
      (fun a => set_attack_power (py_int (inject_Z (attack_power a) * (3 # 2))) a)
      self in
  (Attack (APredator target), self, out).

Definition _predictive_attack (self : AdaptiveAdversary) (target : Predator)
  : Action * AdaptiveAdversary * list Event :=
  match _predict_next_position self (position (super_predator target)) with
  | Some predicted_pos =>
      if _manhattan_distance (self_position self) predicted_pos <=? 2
      then (Move (Adversary._calculate_direction (self_position self) predicted_pos),
            self, [EvPredictiveStrike (self_name self)])
      else (Attack (APredator target), self, [])
  | None => (Attack (APredator target), self, [])
  end.

Definition _calculate_intercept_direction (self : AdaptiveAdversary)
    (from_pos to_pos : Pos) : Direction :=
  match _predict_next_position self to_pos with
  | Some predicted => Adversary._calculate_direction from_pos predicted
  | None => Adversary._calculate_direction from_pos to_pos
  end.

Definition _calculate_adaptive_direction (self : AdaptiveAdversary)
    (from_pos to_pos : Pos) : Direction :=
  match preferred_attack_direction self with
  | Some _ => _calculate_intercept_direction self from_pos to_pos
  | None => Adversary._calculate_direction from_pos to_pos
  end.

Definition _get_adaptive_patrol_direction (self : AdaptiveAdversary)
    (rnd : Random) : option (Direction * AdaptiveAdversary) :=
  let route := patrol_route (super_adaptive self) in
  match route with
  | [] =>
      match random_choice [dN; dS; dE; dW] (draw_choice rnd) with
      | Some d => Some (d, self)
      | None => None
      end
  | _ :: _ =>
      match nth_error route (current_patrol_index (super_adaptive self)) with
      | None => None
      | Some target =>
          if pos_eqb (self_position self) target then
            let index :=
              if Qlt_bool (draw_random rnd) (3 # 10)
              then (draw_randint rnd mod List.length route)%nat
              else ((current_patrol_index (super_adaptive self) + 1)
                    mod List.length route)%nat in
            let self := with_adversary (set_current_patrol_index index) self in
            match nth_error route index with
            | None => None
            | Some target =>
                Some (Adversary._calculate_direction (self_position self) target,
                      self)
            end
          else Some (Adversary._calculate_direction (self_position self) target,
                     self)
      end
  end.

(** The fall-through of [decide_action]: adaptive patrol. *)
Definition patrol_action (self : AdaptiveAdversary) (rnd : Random)
    (out : list Event) : option (Action * AdaptiveAdversary * list Event) :=
  let self := with_adversary (set_movement_pattern patrol) self in
  match _get_adaptive_patrol_direction self rnd with
  | Some (direction, self) => Some (Move direction, self, out)
  | None => None
  end.

Definition decide_action (self : AdaptiveAdversary) (environment : Grid)
    (rnd : Random) : option (Action * AdaptiveAdversary * list Event) :=
  let '(self, out0) := _update_combat_intelligence self in
  match Adversary._find_nearest_predator (super_adaptive self) environment with
  | Some nearest_predator =>
      let target_pos := position (super_predator nearest_predator) in
      let self :=
        set_predator_position_history
          (deque_append 30 target_pos (predator_position_history self)) self in
      let distance := _manhattan_distance (self_position self) target_pos in
      let '(circle, self, out1) := _detect_circle_strategy self in
      if circle then
        let '(action, self, out2) := _counter_circle_strategy self nearest_predator in
        Some (action, self, out0 ++ out1 ++ out2)
      else
        let '(hit_run, self, out2) := _detect_hit_and_run self in
        if hit_run then
          let '(action, self, out3) := _counter_hit_and_run self nearest_predator in
          Some (action, self, out0 ++ out1 ++ out2 ++ out3)
        else
          let out := out0 ++ out1 ++ out2 in
          if berserker_rage (abilities_unlocked self)
             && (health (adaptive_base self) <? 200)
          then
            let '(action, self, out3) :=
              _execute_berserker_rage self nearest_predator in
            Some (action, self, out ++ out3)
          else if predictive_movement (abilities_unlocked self) then
            let '(action, self, out3) := _predictive_attack self nearest_predator in
            Some (action, self, out ++ out3)
          else if distance <=? 1 then
            Some (Attack (APredator nearest_predator),
                  set_combat_encounters (combat_encounters self + 1) self, out)
          else if Qle_bool (inject_Z distance)
                    (inject_Z (threat_radius (super_adaptive self))
                     * chase_aggressiveness self)
          then
            let self := with_adversary (set_movement_pattern chase) self in
            Some (Move (_calculate_adaptive_direction self (self_position self)
                          target_pos), self, out)
          else patrol_action self rnd out
  | None => patrol_action self rnd out0
  end.

Definition take_damage (damage : Z) (self : AdaptiveAdversary)
  : AdaptiveAdversary * list Event :=
  let original_health := health (adaptive_base self) in
  let '(adv, out1) := Adversary.take_damage damage (super_adaptive self) in
  let self := set_super_adaptive adv self in
  let actual_damage := original_health - health (adaptive_base self) in
  let self :=
    set_total_damage_received (total_damage_received self + actual_damage) self in
  let self :=
    set_attack_pattern_memory
      (deque_append 20
         (mkAttackRecord actual_damage (health (adaptive_base self)) false)
         (attack_pattern_memory self)) self in
  if adaptive_armor (abilities_unlocked self) then
    let mitigated := py_int (inject_Z actual_damage * (1 # 10)) in
    let self :=
      with_adaptive_base
        (fun b => set_health (Z.min (max_health b) (health b + mitigated)) b)
        self in
    (self, out1 ++ [EvArmorMitigates (self_name self) mitigated])
  else (self, out1).

End AdaptiveAdversary.

(** [target.take_damage(damage)], dispatched on the class of [target]:
    [Predator], [QLearningPredator], [Wildlife] and [Synthetic] inherit
    [BaseAgent.take_damage]. *)
Definition take_damage (damage : Z) (target : Agent) : Agent * list Event :=
  match target with
  | APredator p =>
      (APredator (set_super_predator
                    (BaseAgent.take_damage damage (super_predator p)) p), [])
  | AQLearningPredator q =>
      let p := super_qlearning q in
      (AQLearningPredator
         (set_super_qlearning
            (set_super_predator
               (BaseAgent.take_damage damage (super_predator p)) p) q), [])
  | AAdversary a =>
      let '(a', out) := Adversary.take_damage damage a in (AAdversary a', out)
  | AAdaptiveAdversary a =>
      let '(a', out) := AdaptiveAdversary.take_damage damage a in
      (AAdaptiveAdversary a', out)
  | AWildlife w =>
      (AWildlife (mkWildlife (BaseAgent.take_damage damage (super_wildlife w))
                    (threat_level w) (is_hostile w) (wildlife_attack_power w)
                    (flee_threshold w)), [])
  | ASynthetic s =>
      (ASynthetic (mkSynthetic
                     (BaseAgent.take_damage damage (super_synthetic s))
                     (is_damaged s) (being_carried s)), [])
  end.

(** ** mechanics/combat.py *)

Module CombatSystem.

(** The result dict; [defeated] is false when the dict has no key
    ['defeated']. *)
Inductive Result :=
| Failure (reason : string)
| Success (attacker defender : string) (damage : Z) (critical : bool)
          (defender_alive : bool) (defeated : bool).

(** The value of [base_damage] in [_calculate_damage] just before the
    random variance is drawn.  The products with 0.7 and 0.85 are taken
    exactly; on the base damages the rules produce (20 to 35 for a
    learner, 35 + 2 * aggression for a boss, 5 * tier for wildlife) the
    truncated exact product and the truncated float product agree. *)
Definition base_damage_before_variance (attacker defender : Agent) : Z :=
  let base_damage := 20 in
  let base_damage :=
    match attacker with
    | APredator _ | AQLearningPredator _ =>
        match as_predator attacker with
        | Some p =>
            let honour_bonus := Z.min 15 (honour p / 10) in
            let base_damage := base_damage + honour_bonus in
            if carrying_thia p then py_int (inject_Z base_damage * (7 # 10))
            else base_damage
        | None => base_damage
        end
    | AAdversary a => 35 + aggression_level a * 2
    | AAdaptiveAdversary a => 35 + aggression_level (super_adaptive a) * 2
    | AWildlife w => 5 * threat_level w
    | ASynthetic _ => base_damage
    end in
  match defender with
  | AAdversary _ | AAdaptiveAdversary _ =>
      py_int (inject_Z base_damage * (85 # 100))
  | _ => base_damage
  end.

(** [variance] is the draw [random.uniform(0.8, 1.2)]. *)
Definition _calculate_damage (attacker defender : Agent) (variance : Q) : Z :=
  let base_damage := base_damage_before_variance attacker defender in
  let final_damage := py_int (inject_Z base_damage * variance) in
  Z.max 1 final_damage.

Definition _award_honour_for_defeat (attacker defender : Agent)
  : Agent * list Event :=
  let target_only := Some (HonourSystem.mkContext (Some defender) None None) in
  let dname := name (agent_base defender) in
  let aname := name (agent_base attacker) in
  match defender with
  | AWildlife w =>
      if 1 <=? threat_level w then
        let '(attacker, _, out) :=
          HonourSystem.update_honour attacker "hunt_worthy_prey" target_only in
        match as_predator attacker with
        | Some _ =>
            (with_predator (fun p => set_trophies (trophies p ++ [dname]) p)
               attacker,
             out ++ [EvTrophy aname dname])
        | None => (attacker, out)
        end
      else
        let '(attacker, _, out) :=
          HonourSystem.update_honour attacker "hunt_unworthy_prey" target_only in
        (attacker, out)
  | AAdversary _ | AAdaptiveAdversary _ =>
      let '(attacker, _, out) :=
        HonourSystem.update_honour attacker "defeat_adversary" target_only in
      match as_predator attacker with
      | Some _ =>
          (with_predator
             (fun p => set_trophies
                         (trophies p ++ [("ULTIMATE_TROPHY_" ++ dname)%string]) p)
             attacker,
           out ++ [EvUltimateTrophy aname dname])
      | None => (attacker, out)
      end
  | APredator d =>
      let '(attacker, _, out) :=
        HonourSystem.update_honour attacker "successful_challenge"
          (Some (HonourSystem.mkContext (Some defender) None (Some (honour d)))) in
      (attacker, out)
  | _ => (attacker, [])
  end.

(** The stamina check: an attacker that has the attribute [stamina]
    and less than 10 of it. *)
Definition exhausted (attacker : Agent) : bool :=
  match as_predator attacker with
  | Some p => stamina p <? 10
  | None => false
  end.

(** [variance] is the draw of [random.uniform(0.8, 1.2)] and [roll] the
    draw of [random.random()] for the critical hit.  Returns the result
    dict, the attacker, the defender and the output. *)
Definition resolve_combat (attacker defender : Agent) (variance roll : Q)
  : Result * Agent * Agent * list Event :=
  if negb (is_alive (agent_base attacker)) || negb (is_alive (agent_base defender))
  then (Failure "One or both combatants are not alive", attacker, defender, [])
  else
    if exhausted attacker
    then (Failure (name (agent_base attacker) ++ " is too exhausted to fight")%string,
          attacker, defender, [])
    else
      let attacker := with_predator (fun p => set_stamina (stamina p - 10) p) attacker in
      let base_damage := _calculate_damage attacker defender variance in
      let critical := Qlt_bool roll (15 # 100) in
      let final_damage :=
        if critical then py_int (inject_Z base_damage * (3 # 2)) else base_damage in
      let '(defender, out1) := take_damage final_damage defender in
      let aname := name (agent_base attacker) in
      let dname := name (agent_base defender) in
      let out2 := [EvAttack aname dname final_damage critical] in
      let alive := is_alive (agent_base defender) in
      if negb alive then
        let '(attacker, out3) :=
          match as_predator attacker with
          | Some _ => _award_honour_for_defeat attacker defender
          | None => (attacker, [])
          end in
        (Success aname dname final_damage critical alive true,
         attacker, defender, out1 ++ out2 ++ [EvDefeated dname] ++ out3)
      else
        (Success aname dname final_damage critical alive false,
         attacker, defender, out1 ++ out2).

Definition can_attack (attacker defender : Agent) (max_range : Z) : bool :=
  if negb (is_alive (agent_base attacker))
     || negb (is_alive (agent_base defender))
  then false
  else if max_range <? _manhattan_distance (position (agent_base attacker))
                         (position (agent_base defender))
  then false
  else if exhausted attacker then false
  else true.

(** The result dict of [clan_challenge] and the lines it prints, its
    own two and those of the honour updates it makes. *)
Inductive ChallengeResult :=
| ChallengeRefused (reason : string)
| ChallengeDone (winner loser : string).

Inductive ChallengeLine :=
| ChallengeAnnounced (challenger challenged : string)
| ChallengeWon (winner : string)
| HonourLine (e : Event).

(** [r1] and [r2] are the two draws of [random.uniform(0.8, 1.2)].  The
    challenger and the challenged are two different objects. *)
Definition clan_challenge (challenger challenged : Agent) (r1 r2 : Q)
  : ChallengeResult * Agent * Agent * list ChallengeLine :=
  match as_predator challenger, as_predator challenged with
  | Some c, Some d =>
      let challenger_score :=
        ((inject_Z (honour c) + inject_Z (health (super_predator c)) / 2) * r1)%Q in
      let challenged_score :=
        ((inject_Z (honour d) + inject_Z (health (super_predator d)) / 2) * r2)%Q in
      let challenger_wins := Qlt_bool challenged_score challenger_score in
      let winner := if challenger_wins then challenger else challenged in
      let loser := if challenger_wins then challenged else challenger in
      let '(loser, out1) := take_damage 15 loser in
      let '(winner, _, out2) :=
        HonourSystem.update_honour winner "win_clan_challenge" None in
      let '(loser, _, out3) :=
        HonourSystem.update_honour loser "lose_clan_challenge" None in
      let tire := with_predator (fun p => set_stamina (Z.max 0 (stamina p - 15)) p) in
      let challenger' := tire (if challenger_wins then winner else loser) in
      let challenged' := tire (if challenger_wins then loser else winner) in
      (ChallengeDone (name (agent_base winner)) (name (agent_base loser)),
       challenger', challenged',
       [ChallengeAnnounced (name (agent_base challenger))
          (name (agent_base challenged))]
       ++ map HonourLine (out1 ++ out2 ++ out3)
       ++ [ChallengeWon (name (agent_base winner))])
  | _, _ =>
      (ChallengeRefused "Both must be Predators for clan challenge",
       challenger, challenged, [])
  end.

End CombatSystem.

(** ** agents/predator.py *)

Module Predator.

Definition _distance_to (self : Predator) (pos : Pos) : Z :=
  Z.abs (fst (position (super_predator self)) - fst pos)
  + Z.abs (snd (position (super_predator self)) - snd pos).

Definition _calculate_direction (from_pos to_pos : Pos) : Direction :=
  let '(fx, fy) := from_pos in
  let '(tx, ty) := to_pos in
  let dx := tx - fx in
  let dy := ty - fy in
  if Z.abs dy <? Z.abs dx then (if 0 <? dx then dE else dW)
  else (if 0 <? dy then dS else dN).

(** [self] is an agent of class [Predator] or [QLearningPredator]; the
    method is inherited unchanged by the latter. *)
Definition _execute_attack (self target : Agent) (variance roll : Q)
  : Agent * Agent * list Event :=
  match as_predator self with
  | None => (self, target, [])
  | Some p =>
      if is_alive (agent_base target)
         && (_distance_to p (position (agent_base target)) <=? 1)
      then
        let '(_, self', target', out) :=
          CombatSystem.resolve_combat self target variance roll in
        (self', target', out)
      else (self, target, [])
  end.

(** The [moves] dict of [_execute_move]: the four cardinal steps; any
    other direction string leaves the position as it is
    ([moves.get(direction, self.position)]). *)
Definition moves (pos : Pos) (direction : Direction) : Pos :=
  let '(x, y) := pos in
  match direction with
  | dN => (x, y - 1)
  | dS => (x, y + 1)
  | dE => (x + 1, y)
  | dW => (x - 1, y)
  | _ => pos
  end.

(** [_execute_move]: the stamina is paid whether or not the move goes
    through. *)
Definition _execute_move (direction : Direction) (environment : Grid)
    (self : Predator) : option Predator :=
  let new_pos := moves (position (super_predator self)) direction in
  let cost := if carrying_thia self then 5 else 2 in
  let self := set_stamina (Z.max 0 (stamina self - cost)) self in
  match py_mod (fst new_pos) (width environment),
        py_mod (snd new_pos) (height environment) with
  | Some wrapped_x, Some wrapped_y =>
      let wrapped_pos := (wrapped_x, wrapped_y) in
      match Grid.is_valid_position environment wrapped_pos with
      | None => None
      | Some true =>
          match Grid.move_agent environment (super_predator self) wrapped_pos with
          | Some base => Some (set_super_predator base self)
          | None => None
          end
      | Some false => Some self
      end
  | _, _ => None
  end.

Definition _execute_rest (self : Predator) : Predator :=
  let self := set_stamina (Z.min (stamina self + 15) (max_stamina self)) self in
  set_super_predator
    (set_health (Z.min (health (super_predator self) + 5)
                   (max_health (super_predator self)))
       (super_predator self)) self.

(** [_find_nearby_threats].  The loop also skips [self]; that test
    cannot change the result, since [self] is a [Predator] or a
    [QLearningPredator] and only wildlife and adversaries are kept. *)
Definition _find_nearby_threats (self : Predator) (environment : Grid)
    (radius : Z) : list Agent :=
  filter
    (fun agent =>
       is_alive (agent_base agent)
       && (String.eqb (class_name agent) "Wildlife"
           || String.eqb (class_name agent) "Adversary"
           || String.eqb (class_name agent) "AdaptiveAdversary")
       && (_distance_to self (position (agent_base agent)) <=? radius))
    (agents environment).

End Predator.

(** ** agents/qlearning_predator.py *)

Module QLearningPredator.

Definition __init__ (name : string) (position : Pos)
    (health stamina honour : Z) (is_dek : bool) (clan_rank : string)
    (learning_rate discount_factor epsilon : Q) : QLearningPredator :=
  mkQLearningPredator
    (mkPredator (mkBaseAgent name position health health true)
       stamina stamina honour is_dek clan_rank [] false)
    learning_rate discount_factor epsilon [] None None honour 0 0 0 0.

Definition _count_nearby_wildlife (self : QLearningPredator)
    (environment : Grid) (radius : Z) : Z :=
  Z.of_nat
    (List.length
       (filter
          (fun agent =>
             String.eqb (class_name agent) "Wildlife"
             && is_alive (agent_base agent)
             && (Predator._distance_to (super_qlearning self)
                   (position (agent_base agent)) <=? radius))
          (agents environment))).

Definition health_level (self : QLearningPredator) : string :=
  let h := health (super_predator (super_qlearning self)) in
  if 70 <? h then "high" else if 40 <? h then "medium" else "low".

Definition stamina_level (self : QLearningPredator) : string :=
  let s := stamina (super_qlearning self) in
  if 60 <? s then "high" else if 30 <? s then "medium" else "low".

Definition honour_level (self : QLearningPredator) : string :=
  let h := honour (super_qlearning self) in
  if 80 <=? h then "elite" else if 50 <=? h then "ready"
  else if 30 <=? h then "blooded" else "low".

Definition wildlife_level (self : QLearningPredator) (environment : Grid)
  : string :=
  let wildlife_nearby := _count_nearby_wildlife self environment 5 in
  if 3 <=? wildlife_nearby then "many"
  else if 1 <=? wildlife_nearby then "some" else "none".

Definition adversary_level (self : QLearningPredator) (environment : Grid)
  : string :=
  match Grid.get_adversary_position environment with
  | Some adversary_pos =>
      let adv_dist := Predator._distance_to (super_qlearning self) adversary_pos in
      if adv_dist <=? 3 then "close"
      else if adv_dist <=? 8 then "near" else "far"
  | None => "none"
  end.

Definition _get_state_representation (self : QLearningPredator)
    (environment : Grid) : string :=
  (health_level self ++ "_" ++ stamina_level self ++ "_"
   ++ honour_level self ++ "_" ++ wildlife_level self environment ++ "_"
   ++ adversary_level self environment)%string.

Definition _find_adversary (environment : Grid) : option Agent :=
  find (fun agent =>
          (String.eqb (class_name agent) "Adversary"
           || String.eqb (class_name agent) "AdaptiveAdversary")
          && is_alive (agent_base agent))
       (agents environment).

Definition decay_epsilon (decay_rate : Q) (self : QLearningPredator)
  : QLearningPredator :=
  set_epsilon (py_maxQ (5 # 100) (epsilon self * decay_rate)) self.

(** The default argument of [decay_epsilon]. *)
Definition default_decay_rate : Q := 995 # 1000.

(** *** The Q-table

    A dict of dicts, kept as association lists in insertion order,
    which is the order Python iterates a dict in. *)

Fixpoint dict_lookup {V} (key : string) (d : list (string * V)) : option V :=
  match d with
  | [] => None
  | (k, v) :: rest =>
      if String.eqb k key then Some v else dict_lookup key rest
  end.

(** [d[key] = v]: the value is replaced where the key already is, a
    new key goes to the end. *)
Fixpoint dict_set {V} (key : string) (v : V) (d : list (string * V))
  : list (string * V) :=
  match d with
  | [] => [(key, v)]
  | (k, v') :: rest =>
      if String.eqb k key then (k, v) :: rest
      else (k, v') :: dict_set key v rest
  end.

(** [{action: 0.0 for action in possible_actions}]. *)
Definition zero_row (possible_actions : list string) : list (string * Q) :=
  fold_left (fun d action => dict_set action 0%Q d) possible_actions [].

(** [max(values)]: the first of the largest values; [ValueError] on
    an empty sequence. *)
Fixpoint py_max_from (first : Q) (rest : list Q) : Q :=
  match rest with
  | [] => first
  | x :: rest' =>
      if Qlt_bool first x then py_max_from x rest' else py_max_from first rest'
  end.

Definition py_max (values : list Q) : option Q :=
  match values with
  | [] => None
  | x :: rest => Some (py_max_from x rest)
  end.

Definition _get_possible_actions (self : QLearningPredator)
    (environment : Grid) : list string :=
  let p := super_qlearning self in
  let actions := ["rest"] in
  let actions :=
    if 5 <=? stamina p
    then actions ++ ["move_N"; "move_S"; "move_E"; "move_W"] else actions in
  let nearby_wildlife := Predator._find_nearby_threats p environment 5 in
  let actions :=
    if match nearby_wildlife with [] => false | _ :: _ => true end
       && (10 <=? stamina p)
    then actions ++ ["hunt_wildlife"] else actions in
  let actions :=
    match Grid.get_adversary_position environment with
    | Some _ =>
        if (40 <=? honour p) && (40 <? health (super_predator p))
        then actions ++ ["engage_adversary"] else actions
    | None => actions
    end in
  if honour p <? 50 then actions ++ ["seek_prey"] else actions.

(** The action dicts the learner hands to [execute_action]; the
    direction is the string the code puts there. *)
Inductive SimAction :=
| SimRest
| SimMove (direction : string)
| SimAttack (target : Agent).

Definition direction_name (d : Direction) : string :=
  match d with
  | dN => "N" | dS => "S" | dE => "E" | dW => "W"
  | dNE => "NE" | dNW => "NW" | dSE => "SE" | dSW => "SW"
  end.

(** [q_action.split('_')[1]]: what stands between the first underscore
    and the next; [IndexError] without an underscore. *)
Fixpoint until_underscore (s : string) : string :=
  match s with
  | EmptyString => EmptyString
  | String c rest =>
      if String.eqb (String c EmptyString) "_" then EmptyString
      else String c (until_underscore rest)
  end.

Fixpoint after_underscore (s : string) : option string :=
  match s with
  | EmptyString => None
  | String c rest => if String.eqb (String c EmptyString) "_" then Some rest else after_underscore rest
  end.

Definition split_1 (s : string) : option string :=
  option_map until_underscore (after_underscore s).

(** Attack the target when it is at distance 1 or less, else step
    toward it: the tail shared by the forced branches of
    [decide_action] and by [_convert_to_simulation_action]. *)
Definition approach (p : Predator) (target : Agent) : SimAction :=
  if Predator._distance_to p (position (agent_base target)) <=? 1
  then SimAttack target
  else SimMove (direction_name
                  (Predator._calculate_direction (position (super_predator p))
                     (position (agent_base target)))).

Definition closest_of (p : Predator) (first : Agent) (rest : list Agent)
  : Agent :=
  py_min_by (fun w => Predator._distance_to p (position (agent_base w)))
    first rest.

(** [pick_dir] is the draw of the [random.choice] among the four
    directions. *)
Definition _convert_to_simulation_action (self : QLearningPredator)
    (q_action : string) (environment : Grid) (pick_dir : nat)
  : option SimAction :=
  let p := super_qlearning self in
  if String.eqb q_action "rest" then Some SimRest
  else if String.prefix "move_" q_action then
    match split_1 q_action with
    | Some direction => Some (SimMove direction)
    | None => None
    end
  else if String.eqb q_action "hunt_wildlife" then
    match Predator._find_nearby_threats p environment 5 with
    | w :: rest => Some (approach p (closest_of p w rest))
    | [] => Some SimRest
    end
  else if String.eqb q_action "engage_adversary" then
    match _find_adversary environment with
    | Some adversary => Some (approach p adversary)
    | None => Some SimRest
    end
  else if String.eqb q_action "seek_prey" then
    match Predator._find_nearby_threats p environment 10 with
    | w :: rest =>
        Some (SimMove
                (direction_name
                   (Predator._calculate_direction
                      (position (super_predator p))
                      (position (agent_base (closest_of p w rest))))))
    | [] => option_map SimMove (random_choice ["N"; "S"; "E"; "W"] pick_dir)
    end
  else Some SimRest.

(** The four assignments every branch of [decide_action] makes before
    it returns. *)
Definition remember (state action : string) (self : QLearningPredator)
  : QLearningPredator :=
  let self := set_last_state (Some state) self in
  let self := set_last_action (Some action) self in
  let self := set_last_honour (honour (super_qlearning self)) self in
  set_actions_taken (actions_taken self + 1) self.

(** [decide_action].  [r_engage], [r_hunt] and [r_eps] are the draws of
    the three calls of [random.random()], each used only if its call is
    reached; [pick] is the draw of the [random.choice] among the
    candidate actions and [pick_dir] the one among the directions. *)
Definition decide_action (environment : Grid) (r_engage r_hunt r_eps : Q)
    (pick pick_dir : nat) (self : QLearningPredator)
  : option (QLearningPredator * SimAction) :=
  let current_state := _get_state_representation self environment in
  let possible_actions := _get_possible_actions self environment in
  let self :=
    match dict_lookup current_state (q_table self) with
    | Some _ => self
    | None =>
        set_q_table (dict_set current_state (zero_row possible_actions)
                       (q_table self)) self
    end in
  let p := super_qlearning self in
  let forced_engage :=
    if (50 <=? honour p) && (50 <? health (super_predator p))
       && (40 <? stamina p)
    then match _find_adversary environment with
         | Some adversary =>
             if Qlt_bool r_engage (8 # 10) then Some adversary else None
         | None => None
         end
    else None in
  match forced_engage with
  | Some adversary =>
      Some (remember current_state "engage_adversary" self,
            approach p adversary)
  | None =>
      let forced_hunt :=
        if (honour p <? 40) && (20 <? stamina p)
        then match Predator._find_nearby_threats p environment 5 with
             | w :: rest =>
                 if Qlt_bool r_hunt (7 # 10)
                 then Some (closest_of p w rest) else None
             | [] => None
             end
        else None in
      match forced_hunt with
      | Some closest =>
          Some (remember current_state "hunt_wildlife" self,
                approach p closest)
      | None =>
          let chosen :=
            if Qlt_bool r_eps (epsilon self) then
              match random_choice possible_actions pick with
              | Some chosen_action =>
                  Some (chosen_action,
                        set_exploration_count (exploration_count self + 1) self)
              | None => None
              end
            else
              match dict_lookup current_state (q_table self) with
              | Some q_values =>
                  match py_max (map snd q_values) with
                  | Some max_q =>
                      let best_actions :=
                        map fst (filter (fun aq => Qeq_bool (snd aq) max_q)
                                   q_values) in
                      match random_choice best_actions pick with
                      | Some chosen_action =>
                          Some (chosen_action,
                                set_exploitation_count
                                  (exploitation_count self + 1) self)
                      | None => None
                      end
                  | None => None
                  end
              | None => None
              end in
          match chosen with
          | Some (chosen_action, self) =>
              let self := remember current_state chosen_action self in
              match _convert_to_simulation_action self chosen_action
                      environment pick_dir with
              | Some action => Some (self, action)
              | None => None
              end
          | None => None
          end
      end
  end.

Definition _calculate_reward (self : QLearningPredator) (environment : Grid)
  : Q :=
  let p := super_qlearning self in
  let b := super_predator p in
  let reward := 0%Q in
  let honour_change := honour p - last_honour self in
  let reward := (reward + inject_Z honour_change * 10)%Q in
  let reward := if is_alive b then (reward + 1)%Q else (reward - 200)%Q in
  let reward :=
    if health b <? 20 then (reward - 10)%Q
    else if 70 <? health b then (reward + 2)%Q else reward in
  let reward := if stamina p <? 10 then (reward - 2)%Q else reward in
  let reward :=
    match _find_adversary environment with
    | Some adversary =>
        let dist := Predator._distance_to p (position (agent_base adversary)) in
        if (50 <=? honour p) && (50 <? health b) then
          if dist <? 5 then (reward + 15)%Q
          else if dist <? 10 then (reward + 8)%Q else reward
        else
          if dist <? 5 then (reward - 5)%Q else reward
    | None => reward
    end in
  let reward :=
    (reward + inject_Z (Z.of_nat (List.length (trophies p))) * 5)%Q in
  if match last_action self with
     | Some a => String.eqb a "rest"
     | None => false
     end && (50 <? stamina p)
  then (reward - 5)%Q else reward.

(** [update_q_value]; [reward] is [None] when the caller leaves it
    out.  [None] as result is the [KeyError] of
    [self.q_table[self.last_state]]. *)
Definition update_q_value (environment : Grid) (reward : option Q)
    (self : QLearningPredator) : option QLearningPredator :=
  match last_state self, last_action self with
  | Some last_s, Some last_a =>
      let reward :=
        match reward with
        | Some r => r
        | None => _calculate_reward self environment
        end in
      let current_state := _get_state_representation self environment in
      let self :=
        match dict_lookup current_state (q_table self) with
        | Some _ => self
        | None =>
            set_q_table
              (dict_set current_state
                 (zero_row (_get_possible_actions self environment))
                 (q_table self)) self
        end in
      match dict_lookup last_s (q_table self),
            dict_lookup current_state (q_table self) with
      | Some row, Some future =>
          let old_q :=
            match dict_lookup last_a row with Some q => q | None => 0%Q end in
          let max_future_q :=
            match py_max (map snd future) with Some m => m | None => 0%Q end in
          let new_q :=
            (old_q + learning_rate self
                     * (reward + discount_factor self * max_future_q - old_q))%Q in
          let self :=
            set_q_table (dict_set last_s (dict_set last_a new_q row)
                           (q_table self)) self in
          Some (set_total_rewards (total_rewards self + reward)%Q self)
      | _, _ => None
      end
  | _, _ => Some self
  end.

(** The dict of [get_learning_stats]; the fields carry the prefix
    [stats_] to keep them apart from the attributes they report. *)
Record LearningStats := mkLearningStats {
  stats_total_rewards : Q;
  stats_actions_taken : Z;
  stats_avg_reward : Q;
  stats_exploration_count : Z;
  stats_exploitation_count : Z;
  stats_exploration_rate : Q;
  stats_q_table_size : Z;
  stats_total_state_actions : Z;
  stats_current_epsilon : Q
}.

Definition get_learning_stats (self : QLearningPredator) : LearningStats :=
  mkLearningStats
    (total_rewards self)
    (actions_taken self)
    (total_rewards self / inject_Z (Z.max 1 (actions_taken self)))%Q
    (exploration_count self)
    (exploitation_count self)
    (inject_Z (exploration_count self)
     / inject_Z (Z.max 1 (actions_taken self)))%Q
    (Z.of_nat (List.length (q_table self)))
    (sumZ (map (fun row => Z.of_nat (List.length (snd row))) (q_table self)))
    (epsilon self).

End QLearningPredator.

(** ** Actions of the adversaries on the world *)

(** [Adversary._execute_attack], inherited by [AdaptiveAdversary]; it
    stands after [take_damage] because it damages its target. *)
Definition Adversary_execute_attack (target : Agent) (self : Adversary)
  : Adversary * Agent * list Event :=
  if _manhattan_distance (position (super_adversary self))
       (position (agent_base target)) <=? 1
  then
    let dmg := attack_power self in
    let '(target, out) := take_damage dmg target in
    let self := set_times_attacked (times_attacked self + 1) self in
    let roar := EvRoars (name (super_adversary self))
                  (name (agent_base target)) dmg in
    if negb (is_alive (agent_base target))
    then (self, target,
          out ++ [roar; EvFallen (name (super_adversary self))
                          (name (agent_base target))])
    else (self, target, out ++ [roar])
  else (self, target, []).

(** [Adversary.execute_action], as inherited by [AdaptiveAdversary]:
    the new [self], the target if one was struck, and the output. *)
Definition AdaptiveAdversary_execute_action (action : Action)
    (environment : Grid) (self : AdaptiveAdversary)
  : option (AdaptiveAdversary * option Agent * list Event) :=
  match action with
  | Move direction =>
      match Adversary._execute_move direction environment (super_adaptive self) with
      | Some adv => Some (set_super_adaptive adv self, None, [])
      | None => None
      end
  | Attack target =>
      let '(adv, target, out) :=
        Adversary_execute_attack target (super_adaptive self) in
      Some (set_super_adaptive adv self, Some target, out)
  | _ => Some (self, None, [])
  end.

(** ** Runs of an adaptive adversary

    Everything the rest of the program can do to an adaptive adversary
    goes through one of its methods: the scheduler calls [decide_action]
    and [execute_action], combat and hazards call [take_damage], the
    resource manager calls [heal], the grid calls [move_to]. *)
Inductive Op :=
| OpDecide (environment : Grid) (rnd : Random)
| OpExecute (action : Action) (environment : Grid)
| OpTakeDamage (damage : Z)
| OpHeal (amount : Z)
| OpMoveTo (new_position : Pos).

Definition apply_op (op : Op) (self : AdaptiveAdversary)
  : option AdaptiveAdversary :=
  match op with
  | OpDecide environment rnd =>
      match AdaptiveAdversary.decide_action self environment rnd with
      | Some (_, self, _) => Some self
      | None => None
      end
  | OpExecute action environment =>
      match AdaptiveAdversary_execute_action action environment self with
      | Some (self, _, _) => Some self
      | None => None
      end
  | OpTakeDamage damage => Some (fst (AdaptiveAdversary.take_damage damage self))
  | OpHeal amount => Some (with_adaptive_base (BaseAgent.heal amount) self)
  | OpMoveTo new_position =>
      Some (with_adaptive_base (BaseAgent.move_to new_position) self)
  end.

Fixpoint run_ops (ops : list Op) (self : AdaptiveAdversary)
  : option AdaptiveAdversary :=
  match ops with
  | [] => Some self
  | op :: rest =>
      match apply_op op self with
      | Some self => run_ops rest self
      | None => None
      end
  end.

(** ** Sequences of honour updates and of epsilon decays *)

Definition agent_honour (a : Agent) : option Z :=
  option_map honour (as_predator a).

Definition agent_stamina (a : Agent) : option Z :=
  option_map stamina (as_predator a).

Definition apply_updates
    (updates : list (string * option HonourSystem.Context)) (predator : Agent)
  : Agent :=
  fold_left
    (fun a u => fst (fst (HonourSystem.update_honour a (fst u) (snd u))))
    updates predator.

(** The rank table read as a specification: [rank] is a highest rank
    whose threshold is at most [honour]. *)
Definition highest_rank_for (honour : Z) (rank : string) : Prop :=
  exists threshold,
    In (rank, threshold) HonourSystem.RANKS /\ threshold <= honour /\
    forall rank' threshold',
      In (rank', threshold') HonourSystem.RANKS ->
      threshold' <= honour -> threshold' <= threshold.

(** [n] calls of [decay_epsilon()] with the default rate. *)
Definition decay_n (n : nat) (self : QLearningPredator) : QLearningPredator :=
  Nat.iter n
    (QLearningPredator.decay_epsilon QLearningPredator.default_decay_rate) self.

(** The archetype tests of the combat rules. *)
Definition is_boss (a : Agent) : bool :=
  match a with
  | AAdversary _ | AAdaptiveAdversary _ => true
  | _ => false
  end.


(** ** Invariants of the adaptive adversary *)

(** The part of an adaptive adversary that [decide_action] never writes:
    the [BaseAgent] attributes and the attack memory. *)
Definition frame (self : AdaptiveAdversary) : BaseAgent * list AttackRecord :=
  (adaptive_base self, attack_pattern_memory self).

(** An output line other than the zone-control line that only
    [_counter_hit_and_run] prints. *)
Definition calm (e : Event) : bool :=
  match e with EvZoneControl _ => false | _ => true end.

(** No record of the attack memory is marked as a retreat. *)
Definition never_retreated (memory : list AttackRecord) : Prop :=
  Forall (fun r => retreated r = false) memory.

(** The adversary at the moment [decide_action] runs its detectors:
    combat intelligence updated and the position of the nearest predator
    recorded. *)
Definition at_detection (self : AdaptiveAdversary) (nearest : Predator)
  : AdaptiveAdversary :=
  let s1 := fst (AdaptiveAdversary._update_combat_intelligence self) in
  set_predator_position_history
    (deque_append 30 (position (super_predator nearest))
       (predator_position_history s1)) s1.

(** The statistics the adaptive adversary keeps, within the bounds its
    methods maintain: the chase multiplier between the floor 0.7 and the
    ceiling 1.5, the two deques within their capacity, and no more
    successful defenses than attacks on record. *)
Definition chase_in_range (c : Q) : Prop := (7 # 10 <= c /\ c <= 3 # 2)%Q.

Record well_kept (self : AdaptiveAdversary) : Prop := mkWellKept {
  kept_chase : chase_in_range (chase_aggressiveness self);
  kept_memory : (List.length (attack_pattern_memory self) <= 20)%nat;
  kept_history : (List.length (predator_position_history self) <= 30)%nat;
  kept_counters :
    0 <= defended_successfully (super_adaptive self)
      <= times_attacked (super_adaptive self)
}.

(** The patrol index points into the patrol route. *)
Definition patrol_ok (self : AdaptiveAdversary) : Prop :=
  (current_patrol_index (super_adaptive self)
   < List.length (patrol_route (super_adaptive self)))%nat.

(** What [decide_action] may do to an adaptive adversary besides moving
    its pattern counters, its attack power and its patrol state. *)
Record evolves (self s : AdaptiveAdversary) : Prop := mkEvolves {
  ev_route :
    patrol_route (super_adaptive s) = patrol_route (super_adaptive self);
  ev_index : patrol_ok self -> patrol_ok s;
  ev_base : adaptive_base s = adaptive_base self;
  ev_memory : attack_pattern_memory s = attack_pattern_memory self;
  ev_attacked :
    times_attacked (super_adaptive s) = times_attacked (super_adaptive self);
  ev_defended :
    defended_successfully (super_adaptive s)
    = defended_successfully (super_adaptive self);
  ev_damage : total_damage_received s = total_damage_received self;
  ev_berserker :
    berserker_rage (abilities_unlocked self) = true ->
    berserker_rage (abilities_unlocked s) = true;
  ev_predictive :
    predictive_movement (abilities_unlocked self) = true ->
    predictive_movement (abilities_unlocked s) = true;
  ev_denial :
    area_denial (abilities_unlocked self) = true ->
    area_denial (abilities_unlocked s) = true;
  ev_armor :
    adaptive_armor (abilities_unlocked self) = true ->
    adaptive_armor (abilities_unlocked s) = true;
  ev_chase :
    chase_in_range (chase_aggressiveness self) ->
    chase_in_range (chase_aggressiveness s);
  ev_history :
    (List.length (predator_position_history self) <= 30)%nat ->
    (List.length (predator_position_history s) <= 30)%nat
}.

(** Every ability unlocked in [a] is unlocked in [b]. *)
Definition unlocked_le (a b : Abilities) : Prop :=
  (berserker_rage a = true -> berserker_rage b = true) /\
  (predictive_movement a = true -> predictive_movement b = true) /\
  (area_denial a = true -> area_denial b = true) /\
  (adaptive_armor a = true -> adaptive_armor b = true).

(** A cell an agent can stand on: inside the grid and not an obstacle. *)
Definition on_open_ground (g : Grid) (pos : Pos) : bool :=
  Grid.in_bounds g (fst pos) (snd pos)
  && negb (existsb (pos_eqb pos) (obstacles g)).

(** The cell a step to [pos] is aimed at, once [_execute_move] has
    taken the coordinates modulo the size of the grid. *)
Definition wrapped (g : Grid) (pos : Pos) : Pos :=
  (fst pos mod width g, snd pos mod height g).

(** ** Runs of a learner

    The scheduler calls [decide_action] and [update_q_value] on the
    learner and, every 50 turns, [decay_epsilon]; everything else in the
    program (combat, movement, honour, hazards, resources) reads and
    writes attributes of its [Predator] part only. *)
Inductive LearnOp :=
| LDecide (environment : Grid) (r_engage r_hunt r_eps : Q) (pick pick_dir : nat)
| LUpdate (environment : Grid) (reward : option Q)
| LDecay (decay_rate : Q)
| LWorld (f : Predator -> Predator).

Definition apply_learn_op (op : LearnOp) (self : QLearningPredator)
  : option QLearningPredator :=
  match op with
  | LDecide environment r_engage r_hunt r_eps pick pick_dir =>
      option_map fst
        (QLearningPredator.decide_action environment r_engage r_hunt r_eps
           pick pick_dir self)
  | LUpdate environment reward =>
      QLearningPredator.update_q_value environment reward self
  | LDecay decay_rate => Some (QLearningPredator.decay_epsilon decay_rate self)
  | LWorld f => Some (set_super_qlearning (f (super_qlearning self)) self)
  end.

Fixpoint run_learn (ops : list LearnOp) (self : QLearningPredator)
  : option QLearningPredator :=
  match ops with
  | [] => Some self
  | op :: rest =>
      match apply_learn_op op self with
      | Some self' => run_learn rest self'
      | None => None
      end
  end.

(** The value the table holds for a state and an action. *)
Definition cell (table : list (string * list (string * Q)))
    (state action : string) : option Q :=
  match QLearningPredator.dict_lookup state table with
  | Some row => QLearningPredator.dict_lookup action row
  | None => None
  end.

(** No state of the table has an empty row, and the state remembered
    for the next update has a row. *)
Definition table_ok (self : QLearningPredator) : Prop :=
  (forall s row,
      QLearningPredator.dict_lookup s (q_table self) = Some row -> row <> [])
  /\ (forall s, last_state self = Some s ->
                exists row,
                  QLearningPredator.dict_lookup s (q_table self) = Some row).

Definition counters_ok (self : QLearningPredator) : Prop :=
  0 <= exploration_count self /\ 0 <= exploitation_count self /\
  exploration_count self + exploitation_count self <= actions_taken self.

(** The table [decide_action] and [update_q_value] work on once the
    row of the current state is there. *)
Definition with_row (self : QLearningPredator) (environment : Grid)
  : list (string * list (string * Q)) :=
  let current_state :=
    QLearningPredator._get_state_representation self environment in
  match QLearningPredator.dict_lookup current_state (q_table self) with
  | Some _ => q_table self
  | None =>
      QLearningPredator.dict_set current_state
        (QLearningPredator.zero_row
           (QLearningPredator._get_possible_actions self environment))
        (q_table self)
  end.

(** The largest value the table holds for a state, 0 for a state it
    does not know or knows no action of. *)
Definition best_value (table : list (string * list (string * Q)))
    (state : string) : Q :=
  match QLearningPredator.dict_lookup state table with
  | Some future =>
      match QLearningPredator.py_max (map snd future) with
      | Some m => m
      | None => 0%Q
      end
  | None => 0%Q
  end.

(** ** Sample worlds *)

(** A learner with the learning parameters [main.py] gives Dek, at
    (5, 5) with 100 health. *)
Definition dek (honour0 stamina0 : Z) : QLearningPredator :=
  QLearningPredator.__init__ "Dek" (5, 5) 100 stamina0 honour0 true "Unblooded"
    (15 # 100) (9 # 10) (4 # 10).

Definition sample_updates : list (string * option HonourSystem.Context) :=
  [("defeat_adversary", None); ("dishonourable_kill", None);
   ("hunt_unworthy_prey", None); ("hunt_unworthy_prey", None);
   ("retreat_from_combat", Some (HonourSystem.mkContext None (Some 10) None))].

(** A creature as [main.py] spawns them. *)
Definition creature (tier : Z) : Wildlife :=
  mkWildlife (mkBaseAgent "Creature_1" (5, 6) 30 30 true) tier (2 <=? tier)
    (5 * tier) 10.

(** The boss with the constructor's default health and threat radius,
    one cell south of Dek: the plain and the adaptive variant. *)
Definition the_beast : Adversary :=
  Adversary.__init__ "The Great Beast" (5, 6) 500 5.

Definition great_beast : AdaptiveAdversary :=
  AdaptiveAdversary.__init__ "The Great Beast" (5, 6) 500 5.

(** A learner built with an exploration rate below the floor. *)
Definition timid_dek : QLearningPredator :=
  QLearningPredator.__init__ "Dek" (5, 5) 100 100 0 true "Unblooded"
    (15 # 100) (9 # 10) (1 # 100).

(** The standard roster around Dek: Dek himself and the given boss. *)
Definition badlands (learner : QLearningPredator) (boss : Agent) : Grid :=
  mkGrid 20 20 true [] [AQLearningPredator learner; boss] 0.

(** Dek as a scripted [Predator] (the simulation run without
    Q-learning), standing at [pos]. *)
Definition plain_dek (pos : Pos) : Predator :=
  mkPredator (mkBaseAgent "Dek" pos 100 100 true) 100 100 0 true "Unblooded"
    [] false.

Definition arena (dek_pos : Pos) : Grid :=
  mkGrid 20 20 true []
    [APredator (plain_dek dek_pos); AAdaptiveAdversary great_beast] 0.

(** A grid with no predator on it. *)
Definition lone : Grid :=
  mkGrid 20 20 true [] [AAdaptiveAdversary great_beast] 0.

Definition still : Random := mkRandom 0 (1 # 2) 0.

(** The state of [great_beast] after a run. *)
Definition after (ops : list Op) : AdaptiveAdversary :=
  match run_ops ops great_beast with
  | Some self => self
  | None => great_beast
  end.

(** Ten hits of 35: health 150, ten attacks on record. *)
Definition ten_hits : list Op := repeat (OpTakeDamage 35) 10.

(** Eleven decisions with Dek standing five cells away. *)
Definition eleven_sightings : list Op :=
  repeat (OpDecide (arena (5, 11)) still) 11.

(** 250 damage, then a decision that unlocks Adaptive Armor. *)
Definition armored_ops : list Op := [OpTakeDamage 250; OpDecide lone still].

(** Further hits that leave the armored boss with 5 health. *)
Definition worn_down_ops : list Op :=
  armored_ops ++ [OpTakeDamage 245; OpTakeDamage 26].

(** Twenty light hits, a decision that unlocks Berserker Rage,
    Predictive Movement and Area Denial, and what follows it. *)
Definition twenty_hits : list Op := repeat (OpTakeDamage 1) 20.

Definition veteran_ops : list Op := twenty_hits ++ [OpDecide lone still].

(** A clan member, not Dek, with the given honour and health. *)
Definition clan_member (honour0 health0 : Z) : Predator :=
  mkPredator (mkBaseAgent "Kuril" (5, 4) health0 100 true) 100 100 honour0
    false "Blooded" [] false.

(** A grid built with wrapping switched off and a rock east of the
    origin column; Dek stands on its western edge. *)
Definition walled : Grid :=
  mkGrid 20 20 false [(1, 5)] [APredator (plain_dek (0, 5))] 0.

(** Dek next to a creature and the plain boss. *)
Definition hunting_ground (learner : QLearningPredator) : Grid :=
  mkGrid 20 20 true []
    [AQLearningPredator learner; AWildlife (creature 1); AAdversary the_beast]
    0.

(** A first turn: Dek decides, the kill brings 20 honour, the table is
    updated; then a second decision. *)
Definition first_turns : list LearnOp :=
  [LDecide (hunting_ground (dek 0 100)) (1 # 2) (1 # 2) (1 # 2) 0 0;
   LWorld (fun p => set_honour 20 (set_stamina 90 p));
   LUpdate (hunting_ground (dek 20 90)) None;
   LDecide (hunting_ground (dek 20 90)) (1 # 2) (9 # 10) (9 # 10) 3 0].

Definition trained_dek : QLearningPredator :=
  match run_learn first_turns (dek 0 100) with
  | Some self => self
  | None => dek 0 100
  end.

(** Dek between the first decision with its kill and the update. *)
Definition dek_after_kill : QLearningPredator :=
  match run_learn (firstn 2 first_turns) (dek 0 100) with
  | Some self => self
  | None => dek 0 100
  end.

(* ================================================================== *)
(** * Properties *)

(** ** Reputation economy *)

Example get_rank_samples :
  map HonourSystem.get_rank [0; 29; 30; 59; 60; 99; 100; 149; 150; 1000; -3]
  = ["Unblooded"; "Unblooded"; "Blooded"; "Blooded"; "Honoured"; "Honoured";
     "Elite"; "Elite"; "Ancient"; "Ancient"; "Unblooded"].
Proof. reflexivity. Qed.

Lemma as_predator_with_predator (f : Predator -> Predator) (a : Agent) :
  as_predator (with_predator f a) = option_map f (as_predator a).
Proof. destruct a; reflexivity. Qed.

Lemma agent_base_with_predator (f : Predator -> Predator) (a : Agent) :
  (forall p, super_predator (f p) = super_predator p) ->
  agent_base (with_predator f a) = agent_base a.
Proof. intros Hf; destruct a; simpl; auto. Qed.

(** [update_honour] adds the returned delta and clamps at zero. *)
Lemma update_honour_honour (a : Agent) (h : Z) action context :
  agent_honour a = Some h ->
  agent_honour (fst (fst (HonourSystem.update_honour a action context)))
  = Some (Z.max 0 (h + snd (fst (HonourSystem.update_honour a action context)))).
Proof.
  unfold agent_honour, HonourSystem.update_honour.
  destruct (as_predator a) as [p|] eqn:Hp; simpl; [|discriminate].
  intros [= <-]. rewrite as_predator_with_predator, Hp. reflexivity.
Qed.

Lemma get_rank_highest (h : Z) :
  0 <= h -> highest_rank_for h (HonourSystem.get_rank h).
Proof.
  intros Hh. unfold highest_rank_for, HonourSystem.get_rank. simpl.
  destruct (150 <=? h) eqn:E150; [|destruct (100 <=? h) eqn:E100;
    [|destruct (60 <=? h) eqn:E60; [|destruct (30 <=? h) eqn:E30;
      [|destruct (0 <=? h) eqn:E0]]]];
    simpl;
    repeat match goal with
           | H : (_ <=? _) = true |- _ => apply Z.leb_le in H
           | H : (_ <=? _) = false |- _ => apply Z.leb_gt in H
           end;
    try lia;
    eexists; (split; [simpl; eauto 10 |]);
    (split; [lia|]);
    intros r' t' Hin Hle; simpl in Hin;
    repeat (destruct Hin as [Hin|Hin]; [inversion Hin; subst; lia|]);
    contradiction.
Qed.

Lemma apply_updates_honour updates :
  forall a h, agent_honour a = Some h -> 0 <= h ->
  exists h', agent_honour (apply_updates updates a) = Some h' /\ 0 <= h'.
Proof.
  induction updates as [|[action context] rest IH]; intros a h Ha Hh.
  - exists h; auto.
  - unfold apply_updates in *. simpl.
    eapply IH.
    + apply update_honour_honour; eassumption.
    + apply Z.le_max_l.
Qed.

(** C1. Whatever sequence of honour updates is applied to a combatant
    whose honour starts nonnegative, after each of them (after every
    prefix of the sequence) the honour is nonnegative and the rank
    [get_rank] derives from it is the highest rank of the table whose
    threshold is at most the honour. *)
Theorem C1_honour_floor_and_rank
    (a : Agent) (h0 : Z)
    (updates : list (string * option HonourSystem.Context)) (n : nat) :
  agent_honour a = Some h0 -> 0 <= h0 ->
  exists h,
    agent_honour (apply_updates (firstn n updates) a) = Some h /\
    0 <= h /\
    highest_rank_for h (HonourSystem.get_rank h).
Proof.
  intros Ha Hh.
  destruct (apply_updates_honour (firstn n updates) a h0 Ha Hh) as [h [H1 H2]].
  exists h; repeat split; auto using get_rank_highest.
Qed.

Lemma C1_witness :
  exists h,
    agent_honour (apply_updates (firstn 4 sample_updates)
                    (AQLearningPredator (dek 0 100))) = Some h /\
    0 <= h /\ highest_rank_for h (HonourSystem.get_rank h).
Proof.
  apply (C1_honour_floor_and_rank (AQLearningPredator (dek 0 100)) 0
           sample_updates 4); [reflexivity | lia].
Defined.

Example sample_updates_trace :
  map (fun n => agent_honour (apply_updates (firstn n sample_updates)
                                (AQLearningPredator (dek 0 100))))
      [0; 1; 2; 3; 4; 5]%nat
  = [Some 0; Some 100; Some 50; Some 20; Some 0; Some 0].
Proof. reflexivity. Qed.

(** ** Worthy-prey bonus *)

Lemma update_honour_worthy_prey (a : Agent) (p : Predator) (w : Wildlife) :
  as_predator a = Some p -> 1 <= threat_level w ->
  exists out,
    HonourSystem.update_honour a "hunt_worthy_prey"
      (Some (HonourSystem.mkContext (Some (AWildlife w)) None None))
    = (with_predator
         (fun _ => set_honour (Z.max 0 (honour p + (15 + threat_level w * 5))) p) a,
       15 + threat_level w * 5, out).
Proof.
  intros Hp Ht. unfold HonourSystem.update_honour. rewrite Hp.
  cbn -[Z.leb Z.max Z.add Z.mul HonourSystem.get_rank].
  apply Z.leb_le in Ht. rewrite Ht. eexists. reflexivity.
Qed.

Lemma award_worthy_prey_honour (attacker : Agent) (p : Predator) (w : Wildlife) :
  as_predator attacker = Some p -> 1 <= threat_level w ->
  agent_honour (fst (CombatSystem._award_honour_for_defeat attacker (AWildlife w)))
  = Some (Z.max 0 (honour p + (15 + 5 * threat_level w))).
Proof.
  intros Hp Ht.
  destruct (update_honour_worthy_prey attacker p w Hp Ht) as [out Hu].
  unfold CombatSystem._award_honour_for_defeat.
  pose proof Ht as Ht'. apply Z.leb_le in Ht'. rewrite Ht'.
  rewrite Hu. rewrite as_predator_with_predator, Hp. cbn [option_map fst].
  unfold agent_honour. rewrite !as_predator_with_predator, Hp.
  cbn [option_map set_trophies set_honour honour].
  do 2 f_equal. lia.
Qed.

(** A kill reported by [resolve_combat] on wildlife of tier [>= 1]. *)
Lemma kill_wildlife_honour (attacker : Agent) (p : Predator) (w : Wildlife)
    (variance roll : Q) a d dmg c al att' def' out :
  as_predator attacker = Some p -> 1 <= threat_level w ->
  CombatSystem.resolve_combat attacker (AWildlife w) variance roll
  = (CombatSystem.Success a d dmg c al true, att', def', out) ->
  agent_honour att' = Some (Z.max 0 (honour p + (15 + 5 * threat_level w))).
Proof.
  intros Hp Ht. unfold CombatSystem.resolve_combat.
  destruct (negb _ || negb _); [discriminate|].
  unfold CombatSystem.exhausted. rewrite Hp.
  destruct (stamina p <? 10); [discriminate|].
  set (att1 := with_predator _ attacker).
  cbn [take_damage].
  set (w1 := mkWildlife _ _ _ _ _).
  cbn [agent_base super_wildlife w1].
  destruct (negb (is_alive _)); [|discriminate].
  assert (H1 : as_predator att1 = Some (set_stamina (stamina p - 10) p)).
  { unfold att1. rewrite as_predator_with_predator, Hp. reflexivity. }
  rewrite H1.
  destruct (CombatSystem._award_honour_for_defeat att1 (AWildlife w1))
    as [att2 out3] eqn:E.
  intros [= <- <- <- <- <- <- <- <-].
  pose proof (award_worthy_prey_honour att1 _ w1 H1 Ht) as H2.
  rewrite E in H2. exact H2.
Qed.

(** C4 as the code has it. When a combatant kills wildlife of threat tier
    [t >= 1], the honour delta [update_honour] returns is [15 + 5 * t]
    (20, 25, 30 for tiers 1, 2, 3); [_award_honour_for_defeat], and with
    it every [resolve_combat] that reports the creature defeated, leaves
    the attacker with honour [max 0 (honour + 15 + 5 * t)]. *)
Theorem C4_worthy_prey_delta (attacker : Agent) (p : Predator) (w : Wildlife) :
  as_predator attacker = Some p -> 1 <= threat_level w ->
  snd (fst (HonourSystem.update_honour attacker "hunt_worthy_prey"
              (Some (HonourSystem.mkContext (Some (AWildlife w)) None None))))
  = 15 + 5 * threat_level w
  /\ agent_honour (fst (CombatSystem._award_honour_for_defeat attacker (AWildlife w)))
     = Some (Z.max 0 (honour p + (15 + 5 * threat_level w)))
  /\ forall variance roll a d dmg c al att' def' out,
       CombatSystem.resolve_combat attacker (AWildlife w) variance roll
       = (CombatSystem.Success a d dmg c al true, att', def', out) ->
       agent_honour att' = Some (Z.max 0 (honour p + (15 + 5 * threat_level w))).
Proof.
  intros Hp Ht.
  destruct (update_honour_worthy_prey attacker p w Hp Ht) as [out Hu].
  split; [|split].
  - rewrite Hu. cbn [fst snd]. lia.
  - apply award_worthy_prey_honour; assumption.
  - intros. eapply kill_wildlife_honour; eassumption.
Qed.

Lemma C4_witness :
  snd (fst (HonourSystem.update_honour (AQLearningPredator (dek 0 100))
              "hunt_worthy_prey"
              (Some (HonourSystem.mkContext (Some (AWildlife (creature 3)))
                       None None))))
  = 15 + 5 * 3.
Proof.
  apply (C4_worthy_prey_delta (AQLearningPredator (dek 0 100))
           (super_qlearning (dek 0 100)) (creature 3));
    [reflexivity | simpl; lia].
Defined.

(** C4 as the spec words it fails at tier 1: the delta is 20, not
    [15 + 5 * (1 - 1) = 15]. *)
Lemma C4_counterexample :
  threat_level (creature 1) = 1 /\
  snd (fst (HonourSystem.update_honour (AQLearningPredator (dek 0 100))
              "hunt_worthy_prey"
              (Some (HonourSystem.mkContext (Some (AWildlife (creature 1)))
                       None None)))) = 20 /\
  agent_honour (fst (CombatSystem._award_honour_for_defeat
                       (AQLearningPredator (dek 0 100)) (AWildlife (creature 1))))
  = Some 20 /\
  20 <> 15 + 5 * (threat_level (creature 1) - 1).
Proof. repeat split; vm_compute; discriminate. Qed.

(** ** Combat resolution *)

Lemma agent_stamina_with_predator f a :
  (forall p, stamina (f p) = stamina p) ->
  agent_stamina (with_predator f a) = agent_stamina a.
Proof.
  intros Hf. unfold agent_stamina. rewrite as_predator_with_predator.
  destruct (as_predator a); simpl; [rewrite Hf|]; reflexivity.
Qed.

Lemma update_honour_stamina a action context a' delta out :
  HonourSystem.update_honour a action context = (a', delta, out) ->
  agent_stamina a' = agent_stamina a.
Proof.
  unfold HonourSystem.update_honour.
  destruct (as_predator a) as [p|] eqn:Hp.
  - intros [= <- _ _]. unfold agent_stamina.
    rewrite as_predator_with_predator, Hp. reflexivity.
  - intros [= <- _ _]. reflexivity.
Qed.

Lemma award_stamina a d :
  agent_stamina (fst (CombatSystem._award_honour_for_defeat a d))
  = agent_stamina a.
Proof.
  unfold CombatSystem._award_honour_for_defeat.
  destruct d; try reflexivity;
    try destruct (1 <=? threat_level w);
    match goal with
    | |- context [HonourSystem.update_honour ?x ?y ?z] =>
        destruct (HonourSystem.update_honour x y z) as [[a' delta] out] eqn:E
    end;
    apply update_honour_stamina in E;
    try destruct (as_predator a'); cbn [fst]; try assumption;
    rewrite agent_stamina_with_predator; auto.
Qed.

Lemma py_int_crit (x : Z) : 1 <= x -> 1 <= py_int (inject_Z x * (3 # 2)).
Proof.
  intros Hx. unfold py_int. cbn [Qnum Qden Qmult inject_Z].
  change (Z.pos (1 * 2)) with 2.
  apply Z.quot_le_lower_bound; lia.
Qed.

(** Combat damage is at least 1 whatever the inputs and the draw. *)
Lemma calculate_damage_floor a d v : 1 <= CombatSystem._calculate_damage a d v.
Proof. unfold CombatSystem._calculate_damage. apply Z.le_max_l. Qed.

Lemma resolve_combat_failure attacker defender variance roll :
  is_alive (agent_base attacker) = false \/
  is_alive (agent_base defender) = false \/
  CombatSystem.exhausted attacker = true ->
  exists reason,
    CombatSystem.resolve_combat attacker defender variance roll
    = (CombatSystem.Failure reason, attacker, defender, []).
Proof.
  intros H. unfold CombatSystem.resolve_combat.
  destruct (negb (is_alive (agent_base attacker))
            || negb (is_alive (agent_base defender))) eqn:Ha.
  - eexists; reflexivity.
  - apply orb_false_elim in Ha. destruct Ha as [Ha Hd].
    apply negb_false_iff in Ha, Hd.
    destruct H as [H|[H|H]]; try congruence.
    rewrite H. eexists; reflexivity.
Qed.

Lemma resolve_combat_success attacker defender variance roll :
  is_alive (agent_base attacker) = true ->
  is_alive (agent_base defender) = true ->
  CombatSystem.exhausted attacker = false ->
  exists dmg critical alive defeated attacker' defender' out,
    CombatSystem.resolve_combat attacker defender variance roll
    = (CombatSystem.Success (name (agent_base attacker))
         (name (agent_base defender')) dmg critical alive defeated,
       attacker', defender', out) /\
    1 <= dmg /\
    agent_stamina attacker'
    = option_map (fun s => s - 10) (agent_stamina attacker).
Proof.
  intros Ha Hd Hx. unfold CombatSystem.resolve_combat.
  rewrite Ha, Hd. cbn [negb orb]. rewrite Hx.
  set (att1 := with_predator _ attacker).
  set (base := CombatSystem._calculate_damage att1 defender variance).
  set (final := if Qlt_bool roll (15 # 100) then _ else base).
  assert (Hfinal : 1 <= final).
  { unfold final. pose proof (calculate_damage_floor att1 defender variance).
    destruct (Qlt_bool roll (15 # 100)); [apply py_int_crit|]; assumption. }
  assert (Hst : agent_stamina att1
                = option_map (fun s => s - 10) (agent_stamina attacker)).
  { unfold att1, agent_stamina. rewrite as_predator_with_predator.
    destruct (as_predator attacker); reflexivity. }
  assert (Hname : name (agent_base att1) = name (agent_base attacker)).
  { unfold att1. rewrite agent_base_with_predator; reflexivity. }
  rewrite Hname.
  destruct (take_damage final defender) as [def1 out1].
  destruct (negb (is_alive (agent_base def1))).
  - destruct (as_predator att1) eqn:Hp1.
    + destruct (CombatSystem._award_honour_for_defeat att1 def1)
        as [att2 out3] eqn:E.
      do 7 eexists. split; [reflexivity|]. split; [assumption|].
      rewrite <- Hst.
      pose proof (award_stamina att1 def1) as H. rewrite E in H. exact H.
    + do 7 eexists. split; [reflexivity|]. split; assumption.
  - do 7 eexists. split; [reflexivity|]. split; assumption.
Qed.

(** C6. [resolve_combat] called with a dead attacker, a dead defender,
    or an attacker that tracks stamina and has less than 10 of it,
    returns a failure with a reason and hands back both combatants
    unchanged, with no output; and whenever it returns a success, the
    stamina of a stamina-tracking attacker has gone down by exactly 10. *)
Theorem C6_combat_preconditions
    (attacker defender : Agent) (variance roll : Q) :
  (is_alive (agent_base attacker) = false \/
   is_alive (agent_base defender) = false \/
   (exists p, as_predator attacker = Some p /\ stamina p < 10) ->
   exists reason,
     CombatSystem.resolve_combat attacker defender variance roll
     = (CombatSystem.Failure reason, attacker, defender, []))
  /\
  (forall a d dmg critical alive defeated attacker' defender' out,
     CombatSystem.resolve_combat attacker defender variance roll
     = (CombatSystem.Success a d dmg critical alive defeated,
        attacker', defender', out) ->
     forall s, agent_stamina attacker = Some s ->
               agent_stamina attacker' = Some (s - 10)).
Proof.
  split.
  - intros H. apply resolve_combat_failure.
    destruct H as [H|[H|[p [Hp Hs]]]]; auto.
    right; right. unfold CombatSystem.exhausted. rewrite Hp.
    apply Z.ltb_lt; assumption.
  - intros a d dmg critical alive defeated attacker' defender' out Hr s Hs.
    destruct (is_alive (agent_base attacker)) eqn:Ha;
      [destruct (is_alive (agent_base defender)) eqn:Hd;
       [destruct (CombatSystem.exhausted attacker) eqn:Hx|]|].
    2: { destruct (resolve_combat_success attacker defender variance roll
                     Ha Hd Hx) as (? & ? & ? & ? & ? & ? & ? & Hr' & _ & Hst).
         rewrite Hr in Hr'. injection Hr' as _ _ _ _ _ _ Hatt _ _.
         rewrite Hatt, Hst, Hs. reflexivity. }
    all: destruct (resolve_combat_failure attacker defender variance roll)
           as [reason Hf]; [auto|]; rewrite Hr in Hf; discriminate.
Qed.

Lemma C6_witness :
  (exists reason,
     CombatSystem.resolve_combat (AQLearningPredator (dek 0 5))
       (AAdversary the_beast) 1 (1 # 2)
     = (CombatSystem.Failure reason, AQLearningPredator (dek 0 5),
        AAdversary the_beast, []))
  /\ agent_stamina
       (snd (fst (fst (CombatSystem.resolve_combat
                         (AQLearningPredator (dek 0 50))
                         (AAdversary the_beast) 1 (1 # 2)))))
     = Some (50 - 10).
Proof.
  split.
  - apply (proj1 (C6_combat_preconditions (AQLearningPredator (dek 0 5))
                    (AAdversary the_beast) 1 (1 # 2))).
    right; right. exists (super_qlearning (dek 0 5)).
    split; [reflexivity | simpl; lia].
  - eapply (proj2 (C6_combat_preconditions (AQLearningPredator (dek 0 50))
                     (AAdversary the_beast) 1 (1 # 2)));
      [vm_compute; reflexivity | reflexivity].
Defined.

Lemma learner_base_damage_on_boss attacker p defender :
  as_predator attacker = Some p ->
  honour p = 100 -> carrying_thia p = false -> is_boss defender = true ->
  CombatSystem.base_damage_before_variance attacker defender = 25.
Proof.
  intros Hp Hh Hc Hb. unfold CombatSystem.base_damage_before_variance.
  destruct attacker; try discriminate; rewrite Hp, Hh, Hc;
    destruct defender; try discriminate; reflexivity.
Qed.

(** C3 as the code has it. A learner (class [Predator] or
    [QLearningPredator]) with honour 100 and stamina 50, not carrying
    Thia, attacks a living boss at distance 1: the base damage before
    the random variance is [int((20 + min(15, 100 // 10)) * 0.85) = 25]
    (the learner's own rule, then the boss's resistance), the attack
    resolves with a damage of at least 1, and the attacker is left with
    stamina 40. *)
Theorem C3_learner_strikes_boss
    (attacker : Agent) (p : Predator) (defender : Agent) (variance roll : Q) :
  as_predator attacker = Some p ->
  honour p = 100 -> stamina p = 50 -> carrying_thia p = false ->
  is_alive (agent_base attacker) = true ->
  is_boss defender = true -> is_alive (agent_base defender) = true ->
  Predator._distance_to p (position (agent_base defender)) = 1 ->
  CombatSystem.base_damage_before_variance attacker defender = 25 /\
  exists dmg critical alive defeated attacker' defender' out,
    CombatSystem.resolve_combat attacker defender variance roll
    = (CombatSystem.Success (name (agent_base attacker))
         (name (agent_base defender')) dmg critical alive defeated,
       attacker', defender', out) /\
    Predator._execute_attack attacker defender variance roll
    = (attacker', defender', out) /\
    1 <= dmg /\
    agent_stamina attacker' = Some 40.
Proof.
  intros Hp Hh Hs Hc Ha Hb Hd Hdist.
  split; [eapply learner_base_damage_on_boss; eassumption|].
  assert (Hx : CombatSystem.exhausted attacker = false).
  { unfold CombatSystem.exhausted. rewrite Hp, Hs. reflexivity. }
  destruct (resolve_combat_success attacker defender variance roll Ha Hd Hx)
    as (dmg & critical & alive & defeated & att' & def' & out & Hr & Hdmg & Hst).
  exists dmg, critical, alive, defeated, att', def', out.
  repeat split; auto.
  - unfold Predator._execute_attack. rewrite Hp, Hd, Hdist, Hr. reflexivity.
  - rewrite Hst. unfold agent_stamina. rewrite Hp. simpl. rewrite Hs. reflexivity.
Qed.

Lemma C3_witness :
  CombatSystem.base_damage_before_variance
    (AQLearningPredator (dek 100 50)) (AAdaptiveAdversary great_beast) = 25.
Proof.
  apply (C3_learner_strikes_boss (AQLearningPredator (dek 100 50))
           (super_qlearning (dek 100 50)) (AAdaptiveAdversary great_beast)
           1 (1 # 2)); reflexivity.
Defined.

(** C3 as the spec words it: the base damage is not
    [(35 + aggression * 2) * 0.85]; that is the rule for a boss that
    attacks.  With the boss's aggression 5 the formula gives 38.25. *)
Lemma C3_counterexample :
  aggression_level (super_adaptive great_beast) = 5 /\
  CombatSystem.base_damage_before_variance
    (AQLearningPredator (dek 100 50)) (AAdaptiveAdversary great_beast) = 25 /\
  ~ (inject_Z (CombatSystem.base_damage_before_variance
                 (AQLearningPredator (dek 100 50))
                 (AAdaptiveAdversary great_beast))
     == (35 + inject_Z (aggression_level (super_adaptive great_beast)) * 2)
        * (85 # 100))%Q /\
  CombatSystem.base_damage_before_variance
    (AQLearningPredator (dek 100 50)) (AAdaptiveAdversary great_beast)
  <> py_int ((35 + inject_Z (aggression_level (super_adaptive great_beast)) * 2)
             * (85 # 100)).
Proof.
  repeat split; try reflexivity; vm_compute; discriminate.
Qed.

Example learner_strike_trace :
  let '(result, attacker, _, _) :=
    CombatSystem.resolve_combat (AQLearningPredator (dek 100 50))
      (AAdaptiveAdversary great_beast) (12 # 10) (1 # 10) in
  (result, agent_stamina attacker)
  = (CombatSystem.Success "Dek" "The Great Beast" 45 true true false, Some 40).
Proof. reflexivity. Qed.

(** ** Exploration decay *)









Example decay_trace :
  map (fun n => Qred (epsilon (decay_n n timid_dek))) [0; 1; 2]%nat
  = [1 # 100; 1 # 20; 1 # 20]%Q.
Proof. reflexivity. Qed.

(** ** State discretisation: the boss-proximity level *)

(** What the code does for a boss of class [Adversary]: the level follows
    the Manhattan distance to the first such agent of the roster. *)
Lemma adversary_level_plain (self : QLearningPredator) (environment : Grid)
    (pos : Pos) :
  Grid.get_adversary_position environment = Some pos ->
  let d := Predator._distance_to (super_qlearning self) pos in
  QLearningPredator.adversary_level self environment
  = if d <=? 3 then "close" else if d <=? 8 then "near" else "far".
Proof.
  intros H. unfold QLearningPredator.adversary_level. rewrite H. reflexivity.
Qed.

(** A roster without an agent whose class is exactly [Adversary] reads as
    "no boss", whether or not an [AdaptiveAdversary] is on it. *)
Lemma adversary_level_without_plain (self : QLearningPredator)
    (environment : Grid) :
  (forall a, In a (agents environment) -> class_name a <> "Adversary") ->
  QLearningPredator.adversary_level self environment = "none".
Proof.
  intros H. unfold QLearningPredator.adversary_level, Grid.get_adversary_position.
  destruct (find _ (agents environment)) as [a|] eqn:E; [|reflexivity].
  apply find_some in E. destruct E as [Hin Hc].
  apply String.eqb_eq in Hc. elim (H a Hin Hc).
Qed.

(** C2 at the failing input. Dek stands at Manhattan distance 1 from a
    living [AdaptiveAdversary], the boss of the standard simulation; the
    state key ends in ["none"], where the claim requires ["close"].  The
    same boss of class [Adversary] reads ["close"], and [_find_adversary]
    of the same class does find the adaptive boss. *)
Theorem C2_adaptive_boss_reads_none :
  let env := badlands (dek 0 100) (AAdaptiveAdversary great_beast) in
  Predator._distance_to (super_qlearning (dek 0 100))
    (position (adaptive_base great_beast)) = 1 /\
  QLearningPredator._find_adversary env = Some (AAdaptiveAdversary great_beast) /\
  QLearningPredator.adversary_level (dek 0 100) env = "none" /\
  QLearningPredator._get_state_representation (dek 0 100) env
  = "high_high_low_none_none" /\
  QLearningPredator._get_state_representation (dek 0 100)
    (badlands (dek 0 100) (AAdversary the_beast))
  = "high_high_low_none_close".
Proof. repeat split. Qed.

(** ** The adaptive adversary: what its methods preserve *)

Ltac split_ifs :=
  repeat match goal with
         | |- context [if ?c then _ else _] => destruct c
         end.

Lemma uci_frame self s out :
  AdaptiveAdversary._update_combat_intelligence self = (s, out) ->
  frame s = frame self /\ forallb calm out = true.
Proof.
  unfold AdaptiveAdversary._update_combat_intelligence.
  split_ifs; intros [= <- <-]; split; reflexivity.
Qed.

Lemma detect_circle_frame self c s out :
  AdaptiveAdversary._detect_circle_strategy self = (c, s, out) ->
  frame s = frame self /\ forallb calm out = true.
Proof.
  unfold AdaptiveAdversary._detect_circle_strategy.
  split_ifs; intros [= <- <- <-]; split; reflexivity.
Qed.

Lemma detect_hit_and_run_frame self c s out :
  AdaptiveAdversary._detect_hit_and_run self = (c, s, out) ->
  frame s = frame self /\ forallb calm out = true.
Proof.
  unfold AdaptiveAdversary._detect_hit_and_run.
  split_ifs; intros [= <- <- <-]; split; reflexivity.
Qed.

Lemma counter_circle_frame self t a s out :
  AdaptiveAdversary._counter_circle_strategy self t = (a, s, out) ->
  frame s = frame self /\ forallb calm out = true.
Proof.
  unfold AdaptiveAdversary._counter_circle_strategy.
  destruct (AdaptiveAdversary._predict_next_position _ _);
    intros [= <- <- <-]; split; reflexivity.
Qed.

Lemma counter_hit_and_run_frame self t a s out :
  AdaptiveAdversary._counter_hit_and_run self t = (a, s, out) ->
  frame s = frame self.
Proof.
  unfold AdaptiveAdversary._counter_hit_and_run.
  split_ifs; intros [= <- <- <-]; reflexivity.
Qed.

Lemma berserker_frame self t a s out :
  AdaptiveAdversary._execute_berserker_rage self t = (a, s, out) ->
  frame s = frame self /\ forallb calm out = true.
Proof.
  unfold AdaptiveAdversary._execute_berserker_rage.
  intros [= <- <- <-]; split; reflexivity.
Qed.

Lemma predictive_frame self t a s out :
  AdaptiveAdversary._predictive_attack self t = (a, s, out) ->
  frame s = frame self /\ forallb calm out = true.
Proof.
  unfold AdaptiveAdversary._predictive_attack.
  destruct (AdaptiveAdversary._predict_next_position _ _); split_ifs;
    intros [= <- <- <-]; split; reflexivity.
Qed.

Lemma patrol_frame self rnd out0 a s out :
  AdaptiveAdversary.patrol_action self rnd out0 = Some (a, s, out) ->
  frame s = frame self /\ out = out0.
Proof.
  unfold AdaptiveAdversary.patrol_action,
    AdaptiveAdversary._get_adaptive_patrol_direction.
  cbn [patrol_route super_adaptive with_adversary set_super_adaptive
       set_movement_pattern].
  destruct (patrol_route (super_adaptive self)) as [|r0 route].
  - destruct (random_choice _ _); [|discriminate].
    intros [= <- <- <-]; split; reflexivity.
  - repeat match goal with
      | |- context [match nth_error ?l ?i with _ => _ end] =>
          destruct (nth_error l i)
      | |- context [if ?c then _ else _] => destruct c
      end; try discriminate; intros [= <- <- <-]; split; reflexivity.
Qed.

Lemma Forall_skipn {A} (P : A -> Prop) n l : Forall P l -> Forall P (skipn n l).
Proof.
  revert l; induction n as [|n IH]; intros l H; [exact H|].
  destruct l; [constructor|]. inversion H; subst. simpl. auto.
Qed.

Lemma filter_retreated_nil memory :
  never_retreated memory -> filter retreated memory = [].
Proof.
  induction 1 as [|r l Hr _ IH]; [reflexivity|].
  simpl. rewrite Hr. exact IH.
Qed.

(** With no record marked as a retreat the detector says no and changes
    nothing. *)
Lemma detect_hit_and_run_false self :
  never_retreated (attack_pattern_memory self) ->
  AdaptiveAdversary._detect_hit_and_run self = (false, self, []).
Proof.
  intros H. unfold AdaptiveAdversary._detect_hit_and_run.
  destruct (_ <? _)%nat; [reflexivity|].
  rewrite filter_retreated_nil; [reflexivity|].
  apply Forall_skipn. exact H.
Qed.

Lemma never_retreated_deque_append r memory :
  retreated r = false -> never_retreated memory ->
  never_retreated (deque_append 20 r memory).
Proof.
  intros Hr H. unfold deque_append. apply Forall_skipn.
  apply Forall_app. split; [exact H|]. constructor; [exact Hr|constructor].
Qed.

(** [decide_action] writes neither the [BaseAgent] attributes nor the
    attack memory, and prints the zone-control line only if a recorded
    attack is marked as a retreat. *)
Lemma decide_action_frame self environment rnd a s out :
  AdaptiveAdversary.decide_action self environment rnd = Some (a, s, out) ->
  frame s = frame self /\
  (never_retreated (attack_pattern_memory self) -> forallb calm out = true).
Proof.
  unfold AdaptiveAdversary.decide_action.
  destruct (AdaptiveAdversary._update_combat_intelligence self)
    as [s1 o0] eqn:E0.
  apply uci_frame in E0. destruct E0 as [F0 C0].
  destruct (Adversary._find_nearest_predator _ _) as [t|].
  2: { intros H. apply patrol_frame in H. destruct H as [F ->].
       split; [congruence | auto]. }
  set (s2 := set_predator_position_history _ s1).
  assert (F2 : frame s2 = frame self) by (rewrite <- F0; reflexivity).
  destruct (AdaptiveAdversary._detect_circle_strategy s2)
    as [[c s3] o1] eqn:E1.
  apply detect_circle_frame in E1. destruct E1 as [F1 C1].
  assert (F3 : frame s3 = frame self) by congruence.
  destruct c.
  { destruct (AdaptiveAdversary._counter_circle_strategy s3 t)
      as [[a' s4] o2] eqn:E2.
    apply counter_circle_frame in E2. destruct E2 as [F4 C2].
    intros [= <- <- <-]. split; [congruence|]. intros _.
    rewrite !forallb_app, C0, C1, C2. reflexivity. }
  destruct (AdaptiveAdversary._detect_hit_and_run s3)
    as [[h s4] o2] eqn:E2.
  pose proof (detect_hit_and_run_frame _ _ _ _ E2) as [F4 C2].
  assert (F4' : frame s4 = frame self) by congruence.
  destruct h.
  { destruct (AdaptiveAdversary._counter_hit_and_run s4 t)
      as [[a' s5] o3] eqn:E3.
    apply counter_hit_and_run_frame in E3.
    intros [= <- <- <-]. split; [congruence|]. intros Hmem.
    rewrite detect_hit_and_run_false in E2; [discriminate|].
    assert (attack_pattern_memory s3 = attack_pattern_memory self)
      by (injection F3; auto).
    congruence. }
  assert (C012 : forallb calm (o0 ++ o1 ++ o2) = true).
  { rewrite !forallb_app, C0, C1, C2. reflexivity. }
  destruct (_ && _).
  { destruct (AdaptiveAdversary._execute_berserker_rage s4 t)
      as [[a' s5] o3] eqn:E3.
    apply berserker_frame in E3. destruct E3 as [F5 C3].
    intros [= <- <- <-]. split; [congruence|]. intros _.
    rewrite forallb_app, C012, C3. reflexivity. }
  destruct (predictive_movement _).
  { destruct (AdaptiveAdversary._predictive_attack s4 t)
      as [[a' s5] o3] eqn:E3.
    apply predictive_frame in E3. destruct E3 as [F5 C3].
    intros [= <- <- <-]. split; [congruence|]. intros _.
    rewrite forallb_app, C012, C3. reflexivity. }
  destruct (_ <=? 1).
  { intros [= <- <- <-]. split; [rewrite <- F4'; reflexivity | auto]. }
  destruct (Qle_bool _ _).
  { intros [= <- <- <-]. split; [rewrite <- F4'; reflexivity | auto]. }
  intros H. apply patrol_frame in H. destruct H as [F ->].
  split; [congruence | auto].
Qed.

Lemma BaseAgent_take_damage_dead damage b :
  is_alive b = false -> is_alive (BaseAgent.take_damage damage b) = false.
Proof.
  intros H. unfold BaseAgent.take_damage. cbn.
  destruct (_ <=? 0); cbn; auto.
Qed.

Lemma move_agent_alive g b p b' :
  Grid.move_agent g b p = Some b' -> is_alive b' = is_alive b.
Proof.
  unfold Grid.move_agent.
  destruct (Grid.wrap_if_enabled g p) as [[x y]|]; [|discriminate].
  destruct (negb _); intros [= <-]; reflexivity.
Qed.

Lemma execute_move_alive direction environment adv adv' :
  Adversary._execute_move direction environment adv = Some adv' ->
  is_alive (super_adversary adv') = is_alive (super_adversary adv).
Proof.
  unfold Adversary._execute_move.
  destruct (py_mod _ _); [|discriminate].
  destruct (py_mod _ _); [|discriminate].
  destruct (Grid.is_valid_position _ _) as [[|]|]; try discriminate.
  - destruct (Grid.move_agent _ _ _) as [b|] eqn:E; [|discriminate].
    intros [= <-]. apply move_agent_alive in E. exact E.
  - intros [= <-]. reflexivity.
Qed.

(** [AdaptiveAdversary.take_damage] in terms of the inherited
    [BaseAgent.take_damage]. *)
Lemma adaptive_take_damage_spec damage self :
  let b1 := BaseAgent.take_damage damage (adaptive_base self) in
  let actual_damage := health (adaptive_base self) - health b1 in
  let self' := fst (AdaptiveAdversary.take_damage damage self) in
  is_alive (adaptive_base self') = is_alive b1 /\
  max_health (adaptive_base self') = max_health (adaptive_base self) /\
  attack_pattern_memory self'
  = deque_append 20 (mkAttackRecord actual_damage (health b1) false)
      (attack_pattern_memory self) /\
  health (adaptive_base self')
  = if adaptive_armor (abilities_unlocked self)
    then Z.min (max_health b1)
           (health b1 + py_int (inject_Z actual_damage * (1 # 10)))
    else health b1.
Proof.
  unfold AdaptiveAdversary.take_damage, Adversary.take_damage, adaptive_base.
  cbn [is_alive super_adversary set_super_adversary set_times_attacked].
  set (b1 := BaseAgent.take_damage damage (super_adversary (super_adaptive self))).
  assert (Hmax : max_health b1 = max_health (super_adversary (super_adaptive self))).
  { unfold b1, BaseAgent.take_damage. cbn. destruct (_ <=? 0); reflexivity. }
  destruct (is_alive b1) eqn:Ha; cbn;
    destruct (adaptive_armor (abilities_unlocked self)); cbn;
    rewrite ?Ha; auto.
Qed.

(** What one operation does to the attack memory and to the alive flag. *)
Lemma apply_op_effect op self self' :
  apply_op op self = Some self' ->
  (attack_pattern_memory self' = attack_pattern_memory self \/
   exists r, retreated r = false /\
             attack_pattern_memory self'
             = deque_append 20 r (attack_pattern_memory self)) /\
  (is_alive (adaptive_base self) = false ->
   is_alive (adaptive_base self') = false).
Proof.
  destruct op as [environment rnd|action environment|damage|amount|pos];
    cbn [apply_op].
  - destruct (AdaptiveAdversary.decide_action self environment rnd)
      as [[[a s] out]|] eqn:E; [|discriminate].
    intros [= <-]. apply decide_action_frame in E. destruct E as [F _].
    injection F as Fb Fm. split; [left; assumption|]. rewrite Fb. auto.
  - unfold AdaptiveAdversary_execute_action.
    destruct action as [direction|target| |].
    + destruct (Adversary._execute_move direction environment
                  (super_adaptive self)) as [adv|] eqn:E; [|discriminate].
      intros [= <-]. split; [left; reflexivity|].
      apply execute_move_alive in E. unfold adaptive_base. cbn. congruence.
    + unfold Adversary_execute_attack.
      destruct (_ <=? 1); [destruct (take_damage _ target) as [t' o];
                           destruct (negb _)|];
        intros [= <-]; (split; [left; reflexivity|]); auto.
    + intros [= <-]. auto.
    + intros [= <-]. auto.
  - intros [= <-].
    destruct (adaptive_take_damage_spec damage self) as (Ha & _ & Hm & _).
    split.
    + right. eexists. split; [|exact Hm]. reflexivity.
    + intros Hd. rewrite Ha. apply BaseAgent_take_damage_dead. exact Hd.
  - intros [= <-]. split; [left; reflexivity|]. auto.
  - intros [= <-]. split; [left; reflexivity|]. auto.
Qed.


Lemma run_ops_never_retreated ops :
  forall self self',
    run_ops ops self = Some self' ->
    never_retreated (attack_pattern_memory self) ->
    never_retreated (attack_pattern_memory self').
Proof.
  induction ops as [|op ops IH]; intros self self'; cbn [run_ops].
  - intros [= <-]. auto.
  - destruct (apply_op op self) as [s1|] eqn:E; [|discriminate].
    intros Hr Hm. apply (IH s1 self' Hr).
    destruct (proj1 (apply_op_effect op self s1 E)) as [->|[r [Hr' ->]]];
      [assumption|].
    apply never_retreated_deque_append; assumption.
Qed.

Lemma forallb_calm_no_zone_control out :
  forallb calm out = true -> forall who, ~ In (EvZoneControl who) out.
Proof.
  intros H who Hin. rewrite forallb_forall in H.
  specialize (H _ Hin). discriminate.
Qed.

(** C10. In every state an adaptive adversary reaches from its
    constructor through its methods, no record of the attack memory is
    marked as a retreat; an operation either leaves the memory as it is
    or appends one record with [retreated = False] (dropping the oldest
    when 20 are held), never rewriting a record; so [_detect_hit_and_run]
    returns [False] without touching the state, and no decision prints
    the zone-control line, that is [_counter_hit_and_run] never runs. *)
Theorem C10_hit_and_run_never_detected
    (name0 : string) (position0 : Pos) (health0 radius0 : Z)
    (ops : list Op) (self : AdaptiveAdversary) :
  run_ops ops (AdaptiveAdversary.__init__ name0 position0 health0 radius0)
  = Some self ->
  never_retreated (attack_pattern_memory self) /\
  (forall op self',
     apply_op op self = Some self' ->
     attack_pattern_memory self' = attack_pattern_memory self \/
     exists r, retreated r = false /\
               attack_pattern_memory self'
               = deque_append 20 r (attack_pattern_memory self)) /\
  AdaptiveAdversary._detect_hit_and_run self = (false, self, []) /\
  (forall environment rnd action self' out,
     AdaptiveAdversary.decide_action self environment rnd
     = Some (action, self', out) ->
     forall who, ~ In (EvZoneControl who) out).
Proof.
  intros Hrun.
  assert (Hmem : never_retreated (attack_pattern_memory self)).
  { eapply run_ops_never_retreated; [exact Hrun|]. constructor. }
  split; [exact Hmem|]. split; [|split].
  - intros op self' H. exact (proj1 (apply_op_effect op self self' H)).
  - apply detect_hit_and_run_false. exact Hmem.
  - intros environment rnd action self' out H.
    apply forallb_calm_no_zone_control.
    exact (proj2 (decide_action_frame _ _ _ _ _ _ H) Hmem).
Qed.

Lemma py_int_tenth (h : Z) : 0 <= h -> py_int (inject_Z h * (1 # 10)) = h / 10.
Proof.
  intros H. unfold py_int. cbn [Qnum Qden Qmult inject_Z].
  change (Z.pos (1 * 10)) with 10. rewrite Z.mul_1_r.
  apply Z.quot_div_nonneg; lia.
Qed.


(** ** The adaptive adversary: detectors and decisions *)

(** The adversaries look for agents whose class is exactly [Predator]:
    a roster whose only hunter is a [QLearningPredator] shows them
    nobody. *)
Lemma nearest_predator_ignores_learner (a : Adversary) (g : Grid) :
  (forall x, In x (agents g) -> class_name x <> "Predator") ->
  Adversary._find_nearest_predator a g = None.
Proof.
  intros H. unfold Adversary._find_nearest_predator.
  assert (E : Adversary.predators_of (agents g) = []).
  { induction (agents g) as [|x l IH]; [reflexivity|].
    destruct x; cbn;
      try (apply IH; intros y Hy; apply H; right; exact Hy).
    elim (H (APredator p)); [left; reflexivity | reflexivity]. }
  rewrite E. reflexivity.
Qed.

Lemma uci_keeps self :
  let s := fst (AdaptiveAdversary._update_combat_intelligence self) in
  adaptive_base s = adaptive_base self /\
  attack_pattern_memory s = attack_pattern_memory self /\
  predator_position_history s = predator_position_history self /\
  detected_patterns s = detected_patterns self /\
  attack_power (super_adaptive s) = attack_power (super_adaptive self) /\
  (berserker_rage (abilities_unlocked self) = true ->
   berserker_rage (abilities_unlocked s) = true).
Proof.
  unfold AdaptiveAdversary._update_combat_intelligence.
  split_ifs; cbn; repeat split; auto.
Qed.

Lemma find_nearest_same_position a a' environment :
  position (super_adversary a') = position (super_adversary a) ->
  Adversary._find_nearest_predator a' environment
  = Adversary._find_nearest_predator a environment.
Proof.
  intros H. unfold Adversary._find_nearest_predator. rewrite H. reflexivity.
Qed.

Lemma decide_action_at_detection self environment rnd target :
  Adversary._find_nearest_predator (super_adaptive self) environment
  = Some target ->
  AdaptiveAdversary.decide_action self environment rnd
  = let out0 := snd (AdaptiveAdversary._update_combat_intelligence self) in
    let self := at_detection self target in
    let target_pos := position (super_predator target) in
    let distance := _manhattan_distance (AdaptiveAdversary.self_position self) target_pos in
    let '(circle, self, out1) := AdaptiveAdversary._detect_circle_strategy self in
    if circle then
      let '(action, self, out2) :=
        AdaptiveAdversary._counter_circle_strategy self target in
      Some (action, self, out0 ++ out1 ++ out2)
    else
      let '(hit_run, self, out2) := AdaptiveAdversary._detect_hit_and_run self in
      if hit_run then
        let '(action, self, out3) :=
          AdaptiveAdversary._counter_hit_and_run self target in
        Some (action, self, out0 ++ out1 ++ out2 ++ out3)
      else
        let out := out0 ++ out1 ++ out2 in
        if berserker_rage (abilities_unlocked self)
           && (health (adaptive_base self) <? 200)
        then
          let '(action, self, out3) :=
            AdaptiveAdversary._execute_berserker_rage self target in
          Some (action, self, out ++ out3)
        else if predictive_movement (abilities_unlocked self) then
          let '(action, self, out3) :=
            AdaptiveAdversary._predictive_attack self target in
          Some (action, self, out ++ out3)
        else if distance <=? 1 then
          Some (Attack (APredator target),
                set_combat_encounters (combat_encounters self + 1) self, out)
        else if Qle_bool (inject_Z distance)
                  (inject_Z (threat_radius (super_adaptive self))
                   * chase_aggressiveness self)
        then
          let self := with_adversary (set_movement_pattern chase) self in
          Some (Move (AdaptiveAdversary._calculate_adaptive_direction self
                        (AdaptiveAdversary.self_position self) target_pos),
                self, out)
        else AdaptiveAdversary.patrol_action self rnd out.
Proof.
  intros Hfind. unfold AdaptiveAdversary.decide_action, at_detection.
  pose proof (uci_keeps self) as (Hb & _).
  destruct (AdaptiveAdversary._update_combat_intelligence self) as [s1 o0].
  cbn [fst snd] in *.
  rewrite (find_nearest_same_position (super_adaptive self)), Hfind.
  - reflexivity.
  - unfold adaptive_base in Hb. rewrite Hb. reflexivity.
Qed.




Lemma Qlt_bool_iff x y : Qlt_bool x y = true <-> (x < y)%Q.
Proof.
  unfold Qlt_bool. rewrite negb_true_iff. split.
  - intros H. apply Qnot_le_lt. intro Hle. apply Qle_bool_iff in Hle. congruence.
  - intros H. destruct (Qle_bool y x) eqn:E; [|reflexivity].
    apply Qle_bool_iff in E. exfalso. apply (Qlt_not_le _ _ H E).
Qed.







(** ** The adaptive adversary on concrete runs *)

Example ten_hits_state :
  let b := after ten_hits in
  (health (adaptive_base b), attack_power (super_adaptive b),
   times_attacked (super_adaptive b), berserker_rage (abilities_unlocked b))
  = (150, 30, 10, false).
Proof. reflexivity. Qed.




Example twelfth_sighting :
  option_map (fun r => fst (fst r))
    (AdaptiveAdversary.decide_action (after eleven_sightings) (arena (5, 11)) still)
  = Some (Move dS).
Proof. vm_compute. reflexivity. Qed.



Lemma C10_witness :
  AdaptiveAdversary._detect_hit_and_run (after worn_down_ops)
  = (false, after worn_down_ops, []) /\
  List.length (attack_pattern_memory (after worn_down_ops)) = 3%nat.
Proof.
  split; [|vm_compute; reflexivity].
  apply (C10_hit_and_run_never_detected "The Great Beast" (5, 6) 500 5
           worn_down_ops (after worn_down_ops)).
  vm_compute. reflexivity.
Defined.

(** ** The adaptive adversary: bounds kept over every run *)

Lemma evolves_refl self : evolves self self.
Proof. constructor; auto. Qed.

Lemma evolves_trans a b c : evolves a b -> evolves b c -> evolves a c.
Proof.
  intros [] []. constructor; try congruence; auto.
Qed.

Lemma chase_raise_in_range c :
  chase_in_range c -> chase_in_range (py_minQ (3 # 2) (c + (1 # 10))).
Proof.
  unfold chase_in_range, py_minQ. intros [Hlo Hhi].
  destruct (Qlt_bool (c + (1 # 10)) (3 # 2)) eqn:E.
  - apply Qlt_bool_iff in E. split; lra.
  - split; lra.
Qed.

Lemma chase_lower_in_range c :
  chase_in_range c -> chase_in_range (py_maxQ (7 # 10) (c - (1 # 10))).
Proof.
  unfold chase_in_range, py_maxQ. intros [Hlo Hhi].
  destruct (Qlt_bool (7 # 10) (c - (1 # 10))) eqn:E.
  - apply Qlt_bool_iff in E. split; lra.
  - split; lra.
Qed.

Lemma uci_evolves self :
  evolves self (fst (AdaptiveAdversary._update_combat_intelligence self)).
Proof.
  unfold AdaptiveAdversary._update_combat_intelligence.
  split_ifs; cbn; constructor; cbn; auto;
    try (apply chase_raise_in_range); try (apply chase_lower_in_range).
Qed.

Lemma length_deque_append {A} (n : nat) (x : A) (d : list A) :
  (1 <= n)%nat -> (List.length d <= n)%nat ->
  (List.length (deque_append n x d) <= n)%nat.
Proof.
  intros Hn Hd. unfold deque_append.
  rewrite length_skipn, length_app. cbn [List.length]. lia.
Qed.

Lemma at_detection_evolves self target :
  evolves self (at_detection self target).
Proof.
  apply (evolves_trans _ _ _ (uci_evolves self)).
  unfold at_detection. constructor; cbn; auto.
  intros H. apply length_deque_append; [lia | exact H].
Qed.

Lemma detect_circle_evolves self c s out :
  AdaptiveAdversary._detect_circle_strategy self = (c, s, out) -> evolves self s.
Proof.
  unfold AdaptiveAdversary._detect_circle_strategy.
  split_ifs; intros [= <- <- <-]; constructor; auto.
Qed.

Lemma detect_hit_and_run_evolves self c s out :
  AdaptiveAdversary._detect_hit_and_run self = (c, s, out) -> evolves self s.
Proof.
  unfold AdaptiveAdversary._detect_hit_and_run.
  split_ifs; intros [= <- <- <-]; constructor; auto.
Qed.

Lemma counter_circle_evolves self t a s out :
  AdaptiveAdversary._counter_circle_strategy self t = (a, s, out) ->
  evolves self s.
Proof.
  unfold AdaptiveAdversary._counter_circle_strategy.
  destruct (AdaptiveAdversary._predict_next_position _ _);
    intros [= <- <- <-]; constructor; auto.
Qed.

Lemma counter_hit_and_run_evolves self t a s out :
  AdaptiveAdversary._counter_hit_and_run self t = (a, s, out) ->
  evolves self s.
Proof.
  unfold AdaptiveAdversary._counter_hit_and_run.
  split_ifs; intros [= <- <- <-]; constructor; auto.
Qed.

Lemma berserker_evolves self t a s out :
  AdaptiveAdversary._execute_berserker_rage self t = (a, s, out) ->
  evolves self s.
Proof.
  unfold AdaptiveAdversary._execute_berserker_rage.
  intros [= <- <- <-]; constructor; auto.
Qed.

Lemma predictive_evolves self t a s out :
  AdaptiveAdversary._predictive_attack self t = (a, s, out) ->
  evolves self s.
Proof.
  unfold AdaptiveAdversary._predictive_attack.
  destruct (AdaptiveAdversary._predict_next_position _ _); split_ifs;
    intros [= <- <- <-]; constructor; auto.
Qed.

Lemma patrol_evolves self rnd out0 a s out :
  AdaptiveAdversary.patrol_action self rnd out0 = Some (a, s, out) ->
  evolves self s.
Proof.
  unfold AdaptiveAdversary.patrol_action,
    AdaptiveAdversary._get_adaptive_patrol_direction.
  cbn [patrol_route super_adaptive with_adversary set_super_adaptive
       set_movement_pattern].
  destruct (patrol_route (super_adaptive self)) as [|r0 route] eqn:Hroute.
  - destruct (random_choice _ _); [|discriminate].
    intros [= <- <- <-]; constructor; auto.
  - assert (Hmod : forall n, (n mod List.length (r0 :: route)
                              < List.length (r0 :: route))%nat)
      by (intros n; apply Nat.mod_upper_bound; discriminate).
    repeat match goal with
      | |- context [match nth_error ?l ?i with _ => _ end] =>
          destruct (nth_error l i)
      | |- context [if ?c then _ else _] => destruct c
      end; try discriminate; intros [= <- <- <-]; constructor; auto;
      unfold patrol_ok;
      cbn [current_patrol_index patrol_route super_adaptive with_adversary
           set_super_adaptive set_movement_pattern set_current_patrol_index];
      intros _; rewrite Hroute; apply Hmod.
Qed.

Lemma decide_action_evolves self environment rnd a s out :
  AdaptiveAdversary.decide_action self environment rnd = Some (a, s, out) ->
  evolves self s.
Proof.
  destruct (Adversary._find_nearest_predator (super_adaptive self) environment)
    as [t|] eqn:Hfind.
  - rewrite (decide_action_at_detection _ _ _ _ Hfind). cbv zeta.
    pose proof (at_detection_evolves self t) as E0.
    destruct (AdaptiveAdversary._detect_circle_strategy (at_detection self t))
      as [[c s3] o1] eqn:E1.
    apply detect_circle_evolves in E1.
    pose proof (evolves_trans _ _ _ E0 E1) as E01.
    destruct c.
    { destruct (AdaptiveAdversary._counter_circle_strategy s3 t)
        as [[a' s4] o2] eqn:E2.
      apply counter_circle_evolves in E2.
      intros [= <- <- <-]. eapply evolves_trans; eassumption. }
    destruct (AdaptiveAdversary._detect_hit_and_run s3) as [[h s4] o2] eqn:E2.
    apply detect_hit_and_run_evolves in E2.
    pose proof (evolves_trans _ _ _ E01 E2) as E012.
    destruct h.
    { destruct (AdaptiveAdversary._counter_hit_and_run s4 t)
        as [[a' s5] o3] eqn:E3.
      apply counter_hit_and_run_evolves in E3.
      intros [= <- <- <-]. eapply evolves_trans; eassumption. }
    destruct (_ && _).
    { destruct (AdaptiveAdversary._execute_berserker_rage s4 t)
        as [[a' s5] o3] eqn:E3.
      apply berserker_evolves in E3.
      intros [= <- <- <-]. eapply evolves_trans; eassumption. }
    destruct (predictive_movement _).
    { destruct (AdaptiveAdversary._predictive_attack s4 t)
        as [[a' s5] o3] eqn:E3.
      apply predictive_evolves in E3.
      intros [= <- <- <-]. eapply evolves_trans; eassumption. }
    destruct (_ <=? 1).
    { intros [= <- <- <-]. eapply evolves_trans; [eassumption|].
      constructor; auto. }
    destruct (Qle_bool _ _).
    { intros [= <- <- <-]. eapply evolves_trans; [eassumption|].
      constructor; auto. }
    intros H. apply patrol_evolves in H.
    eapply evolves_trans; eassumption.
  - unfold AdaptiveAdversary.decide_action.
    pose proof (uci_evolves self) as E0.
    destruct (AdaptiveAdversary._update_combat_intelligence self)
      as [s1 o0] eqn:E. cbn [fst] in E0.
    rewrite (find_nearest_same_position (super_adaptive self)), Hfind.
    + intros H. apply patrol_evolves in H. eapply evolves_trans; eassumption.
    + pose proof (ev_base _ _ E0) as Hb. unfold adaptive_base in Hb.
      rewrite Hb. reflexivity.
Qed.

Lemma run_ops_ind (P : AdaptiveAdversary -> Prop) :
  (forall op s s', apply_op op s = Some s' -> P s -> P s') ->
  forall ops s s', run_ops ops s = Some s' -> P s -> P s'.
Proof.
  intros Hstep. induction ops as [|op ops IH]; intros s s'; cbn [run_ops].
  - intros [= <-]. auto.
  - destruct (apply_op op s) as [s1|] eqn:E; [|discriminate].
    intros Hr Hp. apply (IH s1 s' Hr). eapply Hstep; eassumption.
Qed.

(** [BaseAgent.take_damage] with its two cases spelled out. *)
Lemma BaseAgent_take_damage_cases damage b :
  (health b - damage <= 0 /\
   BaseAgent.take_damage damage b
   = mkBaseAgent (name b) (position b) 0 (max_health b) false) \/
  (0 < health b - damage /\
   BaseAgent.take_damage damage b
   = mkBaseAgent (name b) (position b) (health b - damage) (max_health b)
       (is_alive b)).
Proof.
  unfold BaseAgent.take_damage. cbn.
  destruct (health b - damage <=? 0) eqn:E.
  - left. apply Z.leb_le in E. auto.
  - right. apply Z.leb_gt in E. auto.
Qed.

(** What [AdaptiveAdversary.take_damage] does to the statistics. *)
Lemma adaptive_take_damage_stats damage self :
  let s := fst (AdaptiveAdversary.take_damage damage self) in
  let alive := is_alive (adaptive_base s) in
  abilities_unlocked s = abilities_unlocked self /\
  chase_aggressiveness s = chase_aggressiveness self /\
  predator_position_history s = predator_position_history self /\
  attack_power (super_adaptive s) = attack_power (super_adaptive self) /\
  times_attacked (super_adaptive s) = times_attacked (super_adaptive self) + 1 /\
  defended_successfully (super_adaptive s)
  = defended_successfully (super_adaptive self) + (if alive then 1 else 0) /\
  (alive = true ->
   threat_radius (super_adaptive s)
   = Z.min 10 (threat_radius (super_adaptive self) + 1) /\
   aggression_level (super_adaptive s)
   = Z.min 10 (aggression_level (super_adaptive self) + 1)) /\
  (alive = false ->
   threat_radius (super_adaptive s) = threat_radius (super_adaptive self) /\
   aggression_level (super_adaptive s) = aggression_level (super_adaptive self)).
Proof.
  unfold AdaptiveAdversary.take_damage, Adversary.take_damage, adaptive_base.
  cbn [is_alive super_adversary set_super_adversary set_times_attacked].
  destruct (is_alive (BaseAgent.take_damage damage
                        (super_adversary (super_adaptive self)))) eqn:Ha;
    cbn; destruct (adaptive_armor (abilities_unlocked self)); cbn;
    rewrite ?Ha; repeat split; auto; try lia; try discriminate.
Qed.

Lemma execute_action_stats action environment self s target out :
  AdaptiveAdversary_execute_action action environment self
  = Some (s, target, out) ->
  abilities_unlocked s = abilities_unlocked self /\
  chase_aggressiveness s = chase_aggressiveness self /\
  attack_pattern_memory s = attack_pattern_memory self /\
  predator_position_history s = predator_position_history self /\
  defended_successfully (super_adaptive s)
  = defended_successfully (super_adaptive self) /\
  times_attacked (super_adaptive self) <= times_attacked (super_adaptive s).
Proof.
  unfold AdaptiveAdversary_execute_action.
  destruct action as [direction|tgt| |].
  - unfold Adversary._execute_move.
    destruct (py_mod _ _); [|discriminate].
    destruct (py_mod _ _); [|discriminate].
    destruct (Grid.is_valid_position _ _) as [[|]|]; try discriminate.
    + destruct (Grid.move_agent _ _ _) as [b|]; [|discriminate].
      intros [= <- _ _]. cbn. repeat split; auto; lia.
    + intros [= <- _ _]. cbn. repeat split; auto; lia.
  - unfold Adversary_execute_attack.
    destruct (_ <=? 1); [destruct (take_damage _ tgt) as [t' o];
                         destruct (negb _)|];
      intros [= <- _ _]; cbn; repeat split; auto; lia.
  - intros [= <- _ _]. repeat split; auto; lia.
  - intros [= <- _ _]. repeat split; auto; lia.
Qed.

Lemma apply_op_well_kept op s s' :
  apply_op op s = Some s' -> well_kept s -> well_kept s'.
Proof.
  intros Hop [Hc Hm Hh Hk].
  pose proof (proj1 (apply_op_effect op s s' Hop)) as Hmem.
  assert (Hm' : (List.length (attack_pattern_memory s') <= 20)%nat).
  { destruct Hmem as [->|[r [_ ->]]]; [exact Hm|].
    apply length_deque_append; [lia | exact Hm]. }
  destruct op as [environment rnd|action environment|damage|amount|pos];
    cbn [apply_op] in Hop.
  - destruct (AdaptiveAdversary.decide_action s environment rnd)
      as [[[a s1] out]|] eqn:E; [|discriminate].
    injection Hop as <-. apply decide_action_evolves in E.
    destruct E. constructor; auto. lia.
  - destruct (AdaptiveAdversary_execute_action action environment s)
      as [[[s1 t] out]|] eqn:E; [|discriminate].
    injection Hop as <-.
    destruct (execute_action_stats _ _ _ _ _ _ E) as (_ & Ec & _ & Eh & Ed & Et).
    constructor; auto; try congruence. lia.
  - injection Hop as <-.
    destruct (adaptive_take_damage_stats damage s)
      as (_ & Ec & Eh & _ & Et & Ed & _).
    constructor; auto; try congruence.
    rewrite Et, Ed. destruct (is_alive _); lia.
  - injection Hop as <-. constructor; auto.
  - injection Hop as <-. constructor; auto.
Qed.

Lemma init_well_kept name0 position0 health0 radius0 :
  well_kept (AdaptiveAdversary.__init__ name0 position0 health0 radius0).
Proof.
  constructor; cbn; try lia. split; lra.
Qed.

Lemma run_ops_well_kept name0 position0 health0 radius0 ops self :
  run_ops ops (AdaptiveAdversary.__init__ name0 position0 health0 radius0)
  = Some self ->
  well_kept self.
Proof.
  intros H. eapply (run_ops_ind well_kept apply_op_well_kept); [exact H|].
  apply init_well_kept.
Qed.

Lemma apply_op_unlocked op s s' :
  apply_op op s = Some s' ->
  unlocked_le (abilities_unlocked s) (abilities_unlocked s').
Proof.
  destruct op as [environment rnd|action environment|damage|amount|pos];
    cbn [apply_op]; intros Hop.
  - destruct (AdaptiveAdversary.decide_action s environment rnd)
      as [[[a s1] out]|] eqn:E; [|discriminate].
    injection Hop as <-. apply decide_action_evolves in E.
    destruct E. repeat split; assumption.
  - destruct (AdaptiveAdversary_execute_action action environment s)
      as [[[s1 t] out]|] eqn:E; [|discriminate].
    injection Hop as <-.
    destruct (execute_action_stats _ _ _ _ _ _ E) as (-> & _).
    repeat split; auto.
  - injection Hop as <-.
    destruct (adaptive_take_damage_stats damage s) as (-> & _).
    repeat split; auto.
  - injection Hop as <-. repeat split; auto.
  - injection Hop as <-. repeat split; auto.
Qed.

(** X1. Ability unlocks are monotonic: whatever the adaptive adversary
    decides, executes or suffers, in any order and from any state, an
    ability that is unlocked stays unlocked. *)
Theorem X1_unlocks_are_monotonic (ops : list Op) (s s' : AdaptiveAdversary) :
  run_ops ops s = Some s' ->
  unlocked_le (abilities_unlocked s) (abilities_unlocked s').
Proof.
  intros H.
  apply (run_ops_ind
           (fun x => unlocked_le (abilities_unlocked s) (abilities_unlocked x)))
    with (ops := ops) (s := s); auto.
  - intros op a b Hop (H1 & H2 & H3 & H4).
    destruct (apply_op_unlocked op a b Hop) as (G1 & G2 & G3 & G4).
    repeat split; auto.
  - repeat split; auto.
Qed.

Lemma X1_witness :
  unlocked_le (abilities_unlocked (after veteran_ops))
    (abilities_unlocked (after (veteran_ops ++ ten_hits))).
Proof.
  apply (X1_unlocks_are_monotonic ten_hits).
  vm_compute. reflexivity.
Defined.

Example veteran_state :
  let b := after veteran_ops in
  (abilities_unlocked b, threat_radius (super_adaptive b),
   times_attacked (super_adaptive b))
  = (mkAbilities true true true false, 13, 20).
Proof. vm_compute. reflexivity. Qed.

(** X2. In every state an adaptive adversary reaches from its
    constructor the chase multiplier lies between the floor 0.7 and the
    ceiling 1.5. *)
Theorem X2_chase_multiplier_bounded
    (name0 : string) (position0 : Pos) (health0 radius0 : Z)
    (ops : list Op) (self : AdaptiveAdversary) :
  run_ops ops (AdaptiveAdversary.__init__ name0 position0 health0 radius0)
  = Some self ->
  (7 # 10 <= chase_aggressiveness self /\ chase_aggressiveness self <= 3 # 2)%Q.
Proof.
  intros H. exact (kept_chase _ (run_ops_well_kept _ _ _ _ _ _ H)).
Qed.

Lemma X2_witness :
  (7 # 10 <= chase_aggressiveness (after (ten_hits ++ repeat (OpDecide lone still) 9))
   /\ chase_aggressiveness (after (ten_hits ++ repeat (OpDecide lone still) 9))
      <= 3 # 2)%Q.
Proof.
  apply (X2_chase_multiplier_bounded "The Great Beast" (5, 6) 500 5
           (ten_hits ++ repeat (OpDecide lone still) 9)).
  vm_compute. reflexivity.
Defined.

(** Nine decisions after ten survived hits: the multiplier has climbed
    from 1.0 and stopped at the ceiling. *)
Example chase_reaches_ceiling :
  map (fun n => Qred (chase_aggressiveness
                        (after (ten_hits ++ repeat (OpDecide lone still) n))))
      [0; 1; 4; 5; 9]%nat
  = [1; 11 # 10; 7 # 5; 3 # 2; 3 # 2]%Q.
Proof. vm_compute. reflexivity. Qed.

(** X3. In every state an adaptive adversary reaches from its
    constructor the attack memory holds at most 20 records and the
    position history at most 30 positions. *)
Theorem X3_deques_within_capacity
    (name0 : string) (position0 : Pos) (health0 radius0 : Z)
    (ops : list Op) (self : AdaptiveAdversary) :
  run_ops ops (AdaptiveAdversary.__init__ name0 position0 health0 radius0)
  = Some self ->
  (List.length (attack_pattern_memory self) <= 20)%nat /\
  (List.length (predator_position_history self) <= 30)%nat.
Proof.
  intros H. pose proof (run_ops_well_kept _ _ _ _ _ _ H) as [].
  split; assumption.
Qed.

Lemma X3_witness :
  (List.length (attack_pattern_memory
                  (after (repeat (OpTakeDamage 1) 25))) <= 20)%nat /\
  (List.length (predator_position_history
                  (after (repeat (OpTakeDamage 1) 25))) <= 30)%nat.
Proof.
  apply (X3_deques_within_capacity "The Great Beast" (5, 6) 500 5
           (repeat (OpTakeDamage 1) 25)).
  vm_compute. reflexivity.
Defined.

Example memory_is_full_after_25_hits :
  List.length (attack_pattern_memory (after (repeat (OpTakeDamage 1) 25)))
  = 20%nat /\
  map health_after
    (firstn 2 (attack_pattern_memory (after (repeat (OpTakeDamage 1) 25))))
  = [494; 493].
Proof. vm_compute. split; reflexivity. Qed.

(** X4. In every state an adaptive adversary reaches from its
    constructor the count of successful defenses is between 0 and the
    count of attacks on record, so the success rate
    [_update_combat_intelligence] computes lies between 0 and 1. *)
Theorem X4_defenses_at_most_attacks
    (name0 : string) (position0 : Pos) (health0 radius0 : Z)
    (ops : list Op) (self : AdaptiveAdversary) :
  run_ops ops (AdaptiveAdversary.__init__ name0 position0 health0 radius0)
  = Some self ->
  0 <= defended_successfully (super_adaptive self)
    <= times_attacked (super_adaptive self).
Proof.
  intros H. exact (kept_counters _ (run_ops_well_kept _ _ _ _ _ _ H)).
Qed.

Lemma X4_witness :
  0 <= defended_successfully (super_adaptive (after worn_down_ops))
    <= times_attacked (super_adaptive (after worn_down_ops)).
Proof.
  apply (X4_defenses_at_most_attacks "The Great Beast" (5, 6) 500 5
           worn_down_ops).
  vm_compute. reflexivity.
Defined.

(** X5. A hit the adaptive adversary survives sets its threat radius and
    its aggression to [min(10, old + 1)]: both end at 10 or less, so a
    radius widened beyond 10, as by Area Denial, falls back to 10. *)
Theorem X5_survived_hit_caps_radius (damage : Z) (self : AdaptiveAdversary) :
  let s := fst (AdaptiveAdversary.take_damage damage self) in
  is_alive (adaptive_base s) = true ->
  threat_radius (super_adaptive s)
  = Z.min 10 (threat_radius (super_adaptive self) + 1) /\
  aggression_level (super_adaptive s)
  = Z.min 10 (aggression_level (super_adaptive self) + 1) /\
  threat_radius (super_adaptive s) <= 10 /\
  aggression_level (super_adaptive s) <= 10 /\
  (9 <= threat_radius (super_adaptive self) ->
   threat_radius (super_adaptive s) = 10).
Proof.
  intros s Ha.
  destruct (adaptive_take_damage_stats damage self)
    as (_ & _ & _ & _ & _ & _ & Halive & _).
  destruct (Halive Ha) as [Hr Hg]. fold s in Hr, Hg.
  rewrite Hr, Hg. repeat split; lia.
Qed.

Lemma X5_witness :
  threat_radius (super_adaptive (after veteran_ops)) = 13 /\
  threat_radius (super_adaptive
                   (fst (AdaptiveAdversary.take_damage 1 (after veteran_ops))))
  = 10.
Proof.
  split; [vm_compute; reflexivity|].
  apply (X5_survived_hit_caps_radius 1 (after veteran_ops)).
  - vm_compute. reflexivity.
  - vm_compute. intro H. discriminate H.
Defined.

Lemma py_int_tenth_bounds (a : Z) :
  0 <= a -> 0 <= py_int (inject_Z a * (1 # 10)) <= a.
Proof.
  intros H. rewrite py_int_tenth by exact H.
  split; [apply Z.div_pos; lia | apply Z.div_le_upper_bound; lia].
Qed.

(** X6. A hit of [damage >= 0] on an adaptive adversary whose health is
    within [0, max_health]: the damage booked (in the running total and
    in the record appended to the attack memory) is [min(damage,
    health)], never more than the health that was left; the health ends
    within [0, max_health], at [max(0, health - damage)] without
    Adaptive Armor and at most a tenth of the booked damage above that
    with it. *)
Theorem X6_damage_booked_is_capped (damage : Z) (self : AdaptiveAdversary) :
  0 <= damage ->
  0 <= health (adaptive_base self) <= max_health (adaptive_base self) ->
  let h := health (adaptive_base self) in
  let s := fst (AdaptiveAdversary.take_damage damage self) in
  total_damage_received s = total_damage_received self + Z.min damage h /\
  attack_pattern_memory s
  = deque_append 20
      (mkAttackRecord (Z.min damage h) (Z.max 0 (h - damage)) false)
      (attack_pattern_memory self) /\
  health (adaptive_base s)
  = (if adaptive_armor (abilities_unlocked self)
     then Z.min (max_health (adaptive_base self))
            (Z.max 0 (h - damage) + Z.min damage h / 10)
     else Z.max 0 (h - damage)) /\
  0 <= health (adaptive_base s) <= max_health (adaptive_base self).
Proof.
  intros Hd [Hlo Hhi] h s.
  assert (Hb : health (BaseAgent.take_damage damage (adaptive_base self))
               = Z.max 0 (h - damage) /\
               max_health (BaseAgent.take_damage damage (adaptive_base self))
               = max_health (adaptive_base self)).
  { destruct (BaseAgent_take_damage_cases damage (adaptive_base self))
      as [[Hc ->]|[Hc ->]]; cbn; fold h in Hc |- *; split; auto; lia. }
  destruct Hb as [Hb Hmx].
  assert (Hact : h - Z.max 0 (h - damage) = Z.min damage h) by lia.
  destruct (adaptive_take_damage_spec damage self) as (_ & _ & Hm & Hh).
  fold s h in Hm, Hh. rewrite Hb, ?Hmx, Hact in *.
  assert (Ht : total_damage_received s
               = total_damage_received self + Z.min damage h).
  { unfold s, AdaptiveAdversary.take_damage, Adversary.take_damage.
    cbn [is_alive super_adversary set_super_adversary set_times_attacked].
    fold (adaptive_base self).
    destruct (is_alive (BaseAgent.take_damage damage (adaptive_base self)));
      cbn; destruct (adaptive_armor (abilities_unlocked self)); cbn;
      unfold adaptive_base in *; rewrite Hb; fold h; f_equal; exact Hact. }
  split; [exact Ht|]. split; [exact Hm|].
  rewrite py_int_tenth in Hh by lia.
  split; [exact Hh|].
  rewrite Hh. destruct (adaptive_armor (abilities_unlocked self)).
  - assert (0 <= Z.min damage h / 10) by (apply Z.div_pos; lia). lia.
  - lia.
Qed.

Lemma X6_witness :
  total_damage_received (fst (AdaptiveAdversary.take_damage 100
                                (after worn_down_ops)))
  = total_damage_received (after worn_down_ops) + 5.
Proof.
  apply (X6_damage_booked_is_capped 100 (after worn_down_ops)).
  - vm_compute. intro H. discriminate H.
  - vm_compute. split; intro H; discriminate H.
Defined.

(** ** Directions *)

Ltac split_ltb :=
  repeat match goal with
         | |- context [?a <? ?b] => destruct (Z.ltb_spec a b)
         end.

(** X7. [Adversary._calculate_direction] between two different cells
    names a step that brings the adversary strictly closer in Manhattan
    distance: by 1 along the dominant axis, by 2 along a diagonal when
    both offsets have the same size.  Asked for the direction from a
    cell to itself it answers ['NW'], a step away. *)
Theorem X7_adversary_direction_closes_in (from_pos to_pos : Pos) :
  from_pos <> to_pos ->
  let step := Adversary.moves from_pos
                (Adversary._calculate_direction from_pos to_pos) in
  let dx := Z.abs (fst to_pos - fst from_pos) in
  let dy := Z.abs (snd to_pos - snd from_pos) in
  _manhattan_distance step to_pos
  = _manhattan_distance from_pos to_pos - (if dx =? dy then 2 else 1)
  /\ Adversary._calculate_direction to_pos to_pos = dNW.
Proof.
  destruct from_pos as [fx fy], to_pos as [tx ty]. intros Hne.
  assert (Hxy : fx <> tx \/ fy <> ty).
  { destruct (Z.eq_dec fx tx) as [->|]; [|auto].
    destruct (Z.eq_dec fy ty) as [->|]; [|auto]. congruence. }
  cbn [fst snd]. split.
  - unfold Adversary._calculate_direction, Adversary.moves, _manhattan_distance.
    destruct (Z.eqb_spec (Z.abs (tx - fx)) (Z.abs (ty - fy)));
      split_ltb; cbn [andb fst snd]; try lia;
      split_ltb; cbn [andb fst snd]; lia.
  - unfold Adversary._calculate_direction.
    rewrite !Z.sub_diag. reflexivity.
Qed.

Lemma X7_witness :
  _manhattan_distance
    (Adversary.moves (5, 6) (Adversary._calculate_direction (5, 6) (8, 3)))
    (8, 3)
  = _manhattan_distance (5, 6) (8, 3) - 2.
Proof.
  apply (X7_adversary_direction_closes_in (5, 6) (8, 3)).
  intro H. discriminate H.
Defined.

(** X8. [Predator._calculate_direction] between two different cells
    names a cardinal step that brings the predator closer by exactly 1
    in Manhattan distance; from a cell to itself it answers ['N']. *)
Theorem X8_predator_direction_closes_in (from_pos to_pos : Pos) :
  from_pos <> to_pos ->
  _manhattan_distance
    (Predator.moves from_pos (Predator._calculate_direction from_pos to_pos))
    to_pos
  = _manhattan_distance from_pos to_pos - 1
  /\ Predator._calculate_direction to_pos to_pos = dN.
Proof.
  destruct from_pos as [fx fy], to_pos as [tx ty]. intros Hne.
  assert (Hxy : fx <> tx \/ fy <> ty).
  { destruct (Z.eq_dec fx tx) as [->|]; [|auto].
    destruct (Z.eq_dec fy ty) as [->|]; [|auto]. congruence. }
  split.
  - unfold Predator._calculate_direction, Predator.moves, _manhattan_distance.
    split_ltb; cbn [fst snd]; lia.
  - unfold Predator._calculate_direction.
    rewrite !Z.sub_diag. reflexivity.
Qed.

Lemma X8_witness :
  _manhattan_distance
    (Predator.moves (5, 5) (Predator._calculate_direction (5, 5) (5, 11)))
    (5, 11)
  = _manhattan_distance (5, 5) (5, 11) - 1.
Proof.
  apply (X8_predator_direction_closes_in (5, 5) (5, 11)).
  intro H. discriminate H.
Defined.

(** X9. [_calculate_aggressive_direction] between two different cells
    steps diagonally whenever both offsets are non-zero, closing the
    Manhattan distance by 2, and otherwise along the one axis that
    separates them, closing it by 1. *)
Theorem X9_aggressive_direction_closes_in (from_pos to_pos : Pos) :
  from_pos <> to_pos ->
  let step := Adversary.moves from_pos
                (AdaptiveAdversary._calculate_aggressive_direction
                   from_pos to_pos) in
  _manhattan_distance step to_pos
  = _manhattan_distance from_pos to_pos
    - (if (fst to_pos =? fst from_pos) || (snd to_pos =? snd from_pos)
       then 1 else 2).
Proof.
  destruct from_pos as [fx fy], to_pos as [tx ty]. intros Hne.
  assert (Hxy : fx <> tx \/ fy <> ty).
  { destruct (Z.eq_dec fx tx) as [->|]; [|auto].
    destruct (Z.eq_dec fy ty) as [->|]; [|auto]. congruence. }
  cbn [fst snd].
  unfold AdaptiveAdversary._calculate_aggressive_direction,
    Adversary._calculate_direction, Adversary.moves, _manhattan_distance.
  destruct (Z.eqb_spec tx fx); destruct (Z.eqb_spec ty fy); cbn [orb];
    split_ltb; cbn [andb fst snd]; try lia;
    split_ltb; cbn [andb fst snd]; lia.
Qed.

Lemma X9_witness :
  _manhattan_distance
    (Adversary.moves (5, 6)
       (AdaptiveAdversary._calculate_aggressive_direction (5, 6) (9, 5)))
    (9, 5)
  = _manhattan_distance (5, 6) (9, 5) - 2.
Proof.
  apply (X9_aggressive_direction_closes_in (5, 6) (9, 5)).
  intro H. discriminate H.
Defined.

(** ** The adaptive adversary always gets a decision *)

Lemma patrol_action_total self rnd out0 :
  patrol_ok self ->
  exists r, AdaptiveAdversary.patrol_action self rnd out0 = Some r.
Proof.
  unfold patrol_ok, AdaptiveAdversary.patrol_action,
    AdaptiveAdversary._get_adaptive_patrol_direction.
  cbn [patrol_route current_patrol_index super_adaptive with_adversary
       set_super_adaptive set_movement_pattern].
  destruct (patrol_route (super_adaptive self)) as [|r0 route] eqn:Hroute;
    [cbn; lia|].
  intros Hidx.
  destruct (nth_error (r0 :: route) (current_patrol_index (super_adaptive self)))
    as [target|] eqn:E1; [|apply nth_error_None in E1; lia].
  destruct (pos_eqb _ target); [|eexists; reflexivity].
  cbn [current_patrol_index patrol_route super_adaptive with_adversary
       set_super_adaptive set_movement_pattern set_current_patrol_index].
  rewrite ?Hroute.
  match goal with
  | |- context [nth_error (r0 :: route) ?i] =>
      destruct (nth_error (r0 :: route) i) as [t2|] eqn:E2
  end; [eexists; reflexivity|].
  apply nth_error_None in E2. exfalso. revert E2.
  destruct (Qlt_bool _ _); intros E2;
    match type of E2 with
    | (_ <= ?n mod ?m)%nat =>
        pose proof (Nat.mod_upper_bound n m ltac:(discriminate))
    end; lia.
Qed.

Lemma decide_action_total self environment rnd :
  patrol_ok self ->
  exists r, AdaptiveAdversary.decide_action self environment rnd = Some r.
Proof.
  intros Hp.
  destruct (Adversary._find_nearest_predator (super_adaptive self) environment)
    as [t|] eqn:Hfind.
  - rewrite (decide_action_at_detection _ _ _ _ Hfind). cbv zeta.
    pose proof (at_detection_evolves self t) as E0.
    destruct (AdaptiveAdversary._detect_circle_strategy (at_detection self t))
      as [[c s3] o1] eqn:E1.
    pose proof (evolves_trans _ _ _ E0 (detect_circle_evolves _ _ _ _ E1)) as E01.
    destruct c.
    { destruct (AdaptiveAdversary._counter_circle_strategy s3 t) as [[a' s4] o2].
      eexists; reflexivity. }
    destruct (AdaptiveAdversary._detect_hit_and_run s3) as [[h s4] o2] eqn:E2.
    pose proof (evolves_trans _ _ _ E01 (detect_hit_and_run_evolves _ _ _ _ E2))
      as E012.
    destruct h.
    { destruct (AdaptiveAdversary._counter_hit_and_run s4 t) as [[a' s5] o3].
      eexists; reflexivity. }
    destruct (_ && _).
    { destruct (AdaptiveAdversary._execute_berserker_rage s4 t) as [[a' s5] o3].
      eexists; reflexivity. }
    destruct (predictive_movement _).
    { destruct (AdaptiveAdversary._predictive_attack s4 t) as [[a' s5] o3].
      eexists; reflexivity. }
    destruct (_ <=? 1); [eexists; reflexivity|].
    destruct (Qle_bool _ _); [eexists; reflexivity|].
    apply patrol_action_total. apply (ev_index _ _ E012). exact Hp.
  - unfold AdaptiveAdversary.decide_action.
    pose proof (uci_evolves self) as E0.
    destruct (AdaptiveAdversary._update_combat_intelligence self)
      as [s1 o0] eqn:E. cbn [fst] in E0.
    rewrite (find_nearest_same_position (super_adaptive self)), Hfind.
    + apply patrol_action_total. apply (ev_index _ _ E0). exact Hp.
    + pose proof (ev_base _ _ E0) as Hb. unfold adaptive_base in Hb.
      rewrite Hb. reflexivity.
Qed.

Lemma apply_op_patrol_ok op s s' :
  apply_op op s = Some s' -> patrol_ok s -> patrol_ok s'.
Proof.
  destruct op as [environment rnd|action environment|damage|amount|pos];
    cbn [apply_op]; intros Hop.
  - destruct (AdaptiveAdversary.decide_action s environment rnd)
      as [[[a s1] out]|] eqn:E; [|discriminate].
    injection Hop as <-. apply decide_action_evolves in E.
    exact (ev_index _ _ E).
  - revert Hop. unfold AdaptiveAdversary_execute_action, patrol_ok.
    destruct action as [direction|tgt| |].
    + unfold Adversary._execute_move.
      destruct (py_mod _ _); [|discriminate].
      destruct (py_mod _ _); [|discriminate].
      destruct (Grid.is_valid_position _ _) as [[|]|]; try discriminate.
      * destruct (Grid.move_agent _ _ _) as [b|]; [|discriminate].
        intros [= <-]. cbn. auto.
      * intros [= <-]. auto.
    + unfold Adversary_execute_attack.
      destruct (_ <=? 1); [destruct (take_damage _ tgt) as [t' o];
                           destruct (negb _)|];
        intros [= <-]; cbn; auto.
    + intros [= <-]. auto.
    + intros [= <-]. auto.
  - injection Hop as <-. unfold patrol_ok.
    unfold AdaptiveAdversary.take_damage, Adversary.take_damage.
    cbn [is_alive super_adversary set_super_adversary set_times_attacked].
    destruct (is_alive _); cbn; destruct (adaptive_armor _); cbn; auto.
  - injection Hop as <-. unfold patrol_ok. cbn. auto.
  - injection Hop as <-. unfold patrol_ok. cbn. auto.
Qed.

(** X10. An adaptive adversary reached from its constructor always gets
    a decision: on any grid and with any random draws [decide_action]
    returns an action and raises nothing, the patrol index staying
    inside the four-cell patrol route. *)
Theorem X10_decision_never_raises
    (name0 : string) (position0 : Pos) (health0 radius0 : Z)
    (ops : list Op) (self : AdaptiveAdversary)
    (environment : Grid) (rnd : Random) :
  run_ops ops (AdaptiveAdversary.__init__ name0 position0 health0 radius0)
  = Some self ->
  (current_patrol_index (super_adaptive self) < 4)%nat /\
  exists action self' out,
    AdaptiveAdversary.decide_action self environment rnd
    = Some (action, self', out).
Proof.
  intros H.
  assert (Hok : patrol_ok self /\
                List.length (patrol_route (super_adaptive self)) = 4%nat).
  { apply (run_ops_ind
             (fun x => patrol_ok x /\
                       List.length (patrol_route (super_adaptive x)) = 4%nat))
      with (ops := ops)
           (s := AdaptiveAdversary.__init__ name0 position0 health0 radius0);
      auto.
    - intros op a b Hop [Hp Hl]. split.
      + eapply apply_op_patrol_ok; eassumption.
      + destruct op as [environment' rnd'|action' environment'|damage|amount|pos];
          cbn [apply_op] in Hop.
        * destruct (AdaptiveAdversary.decide_action a environment' rnd')
            as [[[x s1] out]|] eqn:E; [|discriminate].
          injection Hop as <-. apply decide_action_evolves in E.
          rewrite (ev_route _ _ E). exact Hl.
        * revert Hop. unfold AdaptiveAdversary_execute_action.
          destruct action' as [direction|tgt| |].
          -- unfold Adversary._execute_move.
             destruct (py_mod _ _); [|discriminate].
             destruct (py_mod _ _); [|discriminate].
             destruct (Grid.is_valid_position _ _) as [[|]|]; try discriminate.
             ++ destruct (Grid.move_agent _ _ _) as [b'|]; [|discriminate].
                intros [= <-]. cbn. auto.
             ++ intros [= <-]. auto.
          -- unfold Adversary_execute_attack.
             destruct (_ <=? 1); [destruct (take_damage _ tgt) as [t' o];
                                  destruct (negb _)|];
               intros [= <-]; cbn; auto.
          -- intros [= <-]. auto.
          -- intros [= <-]. auto.
        * injection Hop as <-.
          unfold AdaptiveAdversary.take_damage, Adversary.take_damage.
          cbn [is_alive super_adversary set_super_adversary set_times_attacked].
          destruct (is_alive _); cbn; destruct (adaptive_armor _); cbn; auto.
        * injection Hop as <-. cbn. auto.
        * injection Hop as <-. cbn. auto.
    - split; [unfold patrol_ok; cbn; destruct position0; cbn; lia|].
      cbn. destruct position0. reflexivity. }
  destruct Hok as [Hp Hl]. split.
  - unfold patrol_ok in Hp. lia.
  - destruct (decide_action_total self environment rnd Hp) as [[[a s] o] Hr].
    exists a, s, o. exact Hr.
Qed.

Lemma X10_witness :
  exists action self' out,
    AdaptiveAdversary.decide_action (after worn_down_ops) (arena (5, 11)) still
    = Some (action, self', out).
Proof.
  apply (X10_decision_never_raises "The Great Beast" (5, 6) 500 5
           worn_down_ops (after worn_down_ops) (arena (5, 11)) still).
  vm_compute. reflexivity.
Defined.

(** ** Combat: range check, result fields, clan challenge *)

(** X11. Whenever [can_attack] says yes, for whatever range,
    [resolve_combat] on the same pair succeeds: it reports a damage of
    at least 1 and takes 10 stamina from an attacker that tracks it. *)
Theorem X11_can_attack_then_combat_succeeds
    (attacker defender : Agent) (max_range : Z) (variance roll : Q) :
  CombatSystem.can_attack attacker defender max_range = true ->
  exists dmg critical alive defeated attacker' defender' out,
    CombatSystem.resolve_combat attacker defender variance roll
    = (CombatSystem.Success (name (agent_base attacker))
         (name (agent_base defender')) dmg critical alive defeated,
       attacker', defender', out) /\
    1 <= dmg /\
    agent_stamina attacker'
    = option_map (fun s => s - 10) (agent_stamina attacker).
Proof.
  unfold CombatSystem.can_attack. intros H.
  destruct (negb (is_alive (agent_base attacker))
            || negb (is_alive (agent_base defender))) eqn:Ha; [discriminate|].
  apply orb_false_elim in Ha. destruct Ha as [Ha Hd].
  apply negb_false_iff in Ha, Hd.
  destruct (_ <? _); [discriminate|].
  destruct (CombatSystem.exhausted attacker) eqn:Hx; [discriminate|].
  apply resolve_combat_success; assumption.
Qed.

Lemma X11_witness :
  exists dmg critical alive defeated attacker' defender' out,
    CombatSystem.resolve_combat (AQLearningPredator (dek 0 50))
      (AAdversary the_beast) 1 (1 # 2)
    = (CombatSystem.Success "Dek" (name (agent_base defender')) dmg critical
         alive defeated, attacker', defender', out) /\
    1 <= dmg /\
    agent_stamina attacker' = Some 40.
Proof.
  apply (X11_can_attack_then_combat_succeeds (AQLearningPredator (dek 0 50))
           (AAdversary the_beast) 1 1 (1 # 2)).
  vm_compute. reflexivity.
Defined.

(** X12. A successful [resolve_combat] reports what happened to the
    defender: the defender handed back is the old one after
    [take_damage] of the reported damage, [defender_alive] is its alive
    flag and [defeated] the opposite.  If the defender survives, the
    attacker is changed in nothing but the 10 stamina: no honour and no
    trophy is given without a kill. *)
Theorem X12_combat_result_is_consistent
    (attacker defender : Agent) (variance roll : Q)
    a d dmg critical alive defeated attacker' defender' out :
  CombatSystem.resolve_combat attacker defender variance roll
  = (CombatSystem.Success a d dmg critical alive defeated,
     attacker', defender', out) ->
  defender' = fst (take_damage dmg defender) /\
  alive = is_alive (agent_base defender') /\
  defeated = negb alive /\
  (alive = true ->
   attacker' = with_predator (fun p => set_stamina (stamina p - 10) p) attacker).
Proof.
  unfold CombatSystem.resolve_combat.
  destruct (negb _ || negb _); [discriminate|].
  destruct (CombatSystem.exhausted attacker); [discriminate|].
  set (att1 := with_predator _ attacker).
  set (final := if Qlt_bool roll (15 # 100) then _ else _).
  destruct (take_damage final defender) as [def1 out1] eqn:Et.
  destruct (is_alive (agent_base def1)) eqn:Hal; cbn [negb].
  - intros [= <- <- <- <- <- <- <- <- <-].
    rewrite Et. cbn [fst]. rewrite Hal. repeat split; auto.
  - destruct (as_predator att1);
      [destruct (CombatSystem._award_honour_for_defeat att1 def1)|];
      intros [= <- <- <- <- <- <- <- <- <-];
      rewrite Et; cbn [fst]; rewrite Hal; repeat split; auto; discriminate.
Qed.

Lemma X12_witness :
  snd (fst (fst (CombatSystem.resolve_combat (AQLearningPredator (dek 0 50))
                   (AAdversary the_beast) 1 (1 # 2))))
  = with_predator (fun p => set_stamina (stamina p - 10) p)
      (AQLearningPredator (dek 0 50)).
Proof.
  eapply (X12_combat_result_is_consistent (AQLearningPredator (dek 0 50))
            (AAdversary the_beast) 1 (1 # 2)).
  - vm_compute. reflexivity.
  - reflexivity.
Defined.

Lemma update_honour_plain (a : Agent) (p : Predator) action :
  as_predator a = Some p ->
  exists out,
    HonourSystem.update_honour a action None
    = (with_predator
         (fun _ => set_honour
                     (Z.max 0 (honour p
                               + HonourSystem.dict_get HonourSystem.HONOUR_VALUES
                                   action 0)) p) a,
       HonourSystem.dict_get HonourSystem.HONOUR_VALUES action 0, out).
Proof.
  intros Hp. unfold HonourSystem.update_honour. rewrite Hp.
  eexists. reflexivity.
Qed.

Lemma as_predator_take_damage dmg a p :
  as_predator a = Some p ->
  as_predator (fst (take_damage dmg a))
  = Some (set_super_predator (BaseAgent.take_damage dmg (super_predator p)) p).
Proof.
  destruct a; try discriminate; intros [= <-]; reflexivity.
Qed.

Lemma agent_base_as_predator a p :
  as_predator a = Some p -> agent_base a = super_predator p.
Proof. destruct a; try discriminate; intros [= <-]; reflexivity. Qed.

Lemma BaseAgent_take_damage_name dmg b :
  name (BaseAgent.take_damage dmg b) = name b.
Proof. unfold BaseAgent.take_damage. cbn. destruct (_ <=? 0); reflexivity. Qed.

Lemma agent_base_with_predator_const a p q :
  as_predator a = Some p ->
  agent_base (with_predator (fun _ => q) a) = super_predator q.
Proof. destruct a; try discriminate; reflexivity. Qed.

(** The three mutations [clan_challenge] makes, on a winner and a loser
    that are learners. *)
Lemma challenge_core (winner loser : Agent) (w l : Predator) :
  as_predator winner = Some w -> as_predator loser = Some l ->
  let tire :=
    with_predator (fun p => set_stamina (Z.max 0 (stamina p - 15)) p) in
  exists loser1 out1 winner2 dw out2 loser3 dl out3,
    take_damage 15 loser = (loser1, out1) /\
    HonourSystem.update_honour winner "win_clan_challenge" None
    = (winner2, dw, out2) /\
    HonourSystem.update_honour loser1 "lose_clan_challenge" None
    = (loser3, dl, out3) /\
    name (agent_base winner2) = name (super_predator w) /\
    name (agent_base loser3) = name (super_predator l) /\
    as_predator (tire winner2)
    = Some (set_stamina (Z.max 0 (stamina w - 15))
              (set_honour (Z.max 0 (honour w + 15)) w)) /\
    as_predator (tire loser3)
    = Some (set_stamina (Z.max 0 (stamina l - 15))
              (set_honour (Z.max 0 (honour l + -5))
                 (set_super_predator
                    (BaseAgent.take_damage 15 (super_predator l)) l))).
Proof.
  intros Hw Hl tire.
  pose proof (as_predator_take_damage 15 loser l Hl) as Hl1.
  destruct (take_damage 15 loser) as [loser1 out1]. cbn [fst] in Hl1.
  destruct (update_honour_plain winner w "win_clan_challenge" Hw) as [out2 Hu2].
  destruct (update_honour_plain loser1 _ "lose_clan_challenge" Hl1) as [out3 Hu3].
  do 8 eexists.
  split; [reflexivity|]. split; [exact Hu2|]. split; [exact Hu3|].
  split; [|split; [|split]].
  - rewrite (agent_base_with_predator_const _ _ _ Hw). reflexivity.
  - rewrite (agent_base_with_predator_const _ _ _ Hl1). cbn.
    apply BaseAgent_take_damage_name.
  - unfold tire. rewrite !as_predator_with_predator, Hw. reflexivity.
  - unfold tire. rewrite !as_predator_with_predator, Hl1. reflexivity.
Qed.

(** X13. A clan challenge between two learners.  The challenger wins
    when its jittered score is strictly the larger, the challenged
    otherwise.  The winner's honour becomes [max(0, honour + 15)] and
    its health is untouched; the loser's honour becomes
    [max(0, honour - 5)] and it takes 15 damage through [take_damage],
    so that a loser with 15 health or less ends dead; both lose 15
    stamina, floored at 0. *)
Theorem X13_clan_challenge_outcome
    (challenger challenged : Agent) (c d : Predator) (r1 r2 : Q) :
  as_predator challenger = Some c ->
  as_predator challenged = Some d ->
  let challenger_wins :=
    Qlt_bool
      ((inject_Z (honour d) + inject_Z (health (super_predator d)) / 2) * r2)
      ((inject_Z (honour c) + inject_Z (health (super_predator c)) / 2) * r1) in
  let w := if challenger_wins then c else d in
  let l := if challenger_wins then d else c in
  exists challenger' challenged' out w' l',
    CombatSystem.clan_challenge challenger challenged r1 r2
    = (CombatSystem.ChallengeDone (name (super_predator w))
         (name (super_predator l)),
       challenger', challenged', out) /\
    as_predator (if challenger_wins then challenger' else challenged') = Some w' /\
    as_predator (if challenger_wins then challenged' else challenger') = Some l' /\
    honour w' = Z.max 0 (honour w + 15) /\
    super_predator w' = super_predator w /\
    stamina w' = Z.max 0 (stamina w - 15) /\
    honour l' = Z.max 0 (honour l - 5) /\
    super_predator l' = BaseAgent.take_damage 15 (super_predator l) /\
    stamina l' = Z.max 0 (stamina l - 15) /\
    (health (super_predator l) <= 15 -> is_alive (super_predator l') = false).
Proof.
  intros Hc Hd challenger_wins w l.
  unfold CombatSystem.clan_challenge. rewrite Hc, Hd.
  fold challenger_wins.
  assert (Hdead : health (super_predator l) <= 15 ->
                  is_alive (BaseAgent.take_damage 15 (super_predator l)) = false).
  { intros H. unfold BaseAgent.take_damage. cbn.
    destruct (_ <=? 0) eqn:E; [reflexivity|]. apply Z.leb_gt in E. lia. }
  clearbody challenger_wins. destruct challenger_wins.
  - destruct (challenge_core challenger challenged c d Hc Hd)
      as (l1 & o1 & w2 & dw & o2 & l3 & dl & o3 & E1 & E2 & E3 & N1 & N2 & P1 & P2).
    rewrite E1, E2, E3, N1, N2.
    do 5 eexists. split; [reflexivity|].
    split; [exact P1|]. split; [exact P2|].
    cbn. repeat split; auto.
  - destruct (challenge_core challenged challenger d c Hd Hc)
      as (l1 & o1 & w2 & dw & o2 & l3 & dl & o3 & E1 & E2 & E3 & N1 & N2 & P1 & P2).
    rewrite E1, E2, E3, N1, N2.
    do 5 eexists. split; [reflexivity|].
    split; [exact P1|]. split; [exact P2|].
    cbn. repeat split; auto.
Qed.

Lemma X13_witness :
  exists challenger' challenged' out w' l',
    CombatSystem.clan_challenge (APredator (clan_member 40 100))
      (AQLearningPredator (dek 10 5)) 1 1
    = (CombatSystem.ChallengeDone "Kuril" "Dek", challenger', challenged', out) /\
    as_predator challenger' = Some w' /\
    as_predator challenged' = Some l' /\
    honour w' = 55 /\ honour l' = 5 /\ stamina l' = 0 /\
    is_alive (super_predator l') = true /\ health (super_predator l') = 85.
Proof.
  destruct (X13_clan_challenge_outcome (APredator (clan_member 40 100))
              (AQLearningPredator (dek 10 5)) (clan_member 40 100)
              (super_qlearning (dek 10 5)) 1 1 eq_refl eq_refl)
    as (c' & d' & out & w' & l' & E & Hw & Hl & H1 & H2 & H3 & H4 & H5 & H6 & H7).
  exists c', d', out, w', l'.
  split; [exact E|]. split; [exact Hw|]. split; [exact Hl|].
  split; [exact H1|]. split; [exact H4|]. split; [exact H6|].
  rewrite H5. split; reflexivity.
Defined.

(** The challenge is announced as non-lethal, yet a challenged
    predator with 15 health loses it all and dies. *)
Example clan_challenge_can_kill :
  let challenged' :=
    snd (fst (CombatSystem.clan_challenge (APredator (clan_member 40 100))
                (APredator (clan_member 10 15)) 1 1)) in
  (health (agent_base challenged'), is_alive (agent_base challenged'))
  = (0, false).
Proof. vm_compute. reflexivity. Qed.

(** ** Honour: the summary and the rank events *)

Lemma get_rank_eq (h : Z) :
  HonourSystem.get_rank h
  = if 150 <=? h then "Ancient"
    else if 100 <=? h then "Elite"
    else if 60 <=? h then "Honoured"
    else if 30 <=? h then "Blooded"
    else "Unblooded".
Proof.
  unfold HonourSystem.get_rank. cbn [rev HonourSystem.RANKS app find snd].
  destruct (150 <=? h); [reflexivity|].
  destruct (100 <=? h); [reflexivity|].
  destruct (60 <=? h); [reflexivity|].
  destruct (30 <=? h); [reflexivity|].
  destruct (0 <=? h); reflexivity.
Qed.

Ltac rank_cases :=
  rewrite ?get_rank_eq;
  repeat match goal with
         | |- context [?a <=? ?b] => destruct (Z.leb_spec a b)
         | |- context [?a <? ?b] => destruct (Z.ltb_spec a b)
         end;
  try reflexivity; try lia.

Lemma summary_fields (p : Predator) :
  let s := HonourSystem.get_honour_summary p in
  let h := honour p in
  HonourSystem.next_rank_threshold s
  = (if h <? 0 then Some 0 else if h <? 30 then Some 30
     else if h <? 60 then Some 60 else if h <? 100 then Some 100
     else if h <? 150 then Some 150 else None) /\
  HonourSystem.honour_needed s
  = (if h <? 0 then 0 else if h <? 30 then 30 - h
     else if h <? 60 then 60 - h else if h <? 100 then 100 - h
     else if h <? 150 then 150 - h else 0).
Proof.
  unfold HonourSystem.get_honour_summary.
  cbn [HonourSystem.next_rank_threshold HonourSystem.honour_needed
       HonourSystem.RANKS find snd].
  destruct (honour p <? 0); [split; reflexivity|].
  destruct (honour p <? 30); [split; reflexivity|].
  destruct (honour p <? 60); [split; reflexivity|].
  destruct (honour p <? 100); [split; reflexivity|].
  destruct (honour p <? 150); split; reflexivity.
Qed.

(** X14. For a predator with honour [h >= 0], [get_honour_summary]
    gives, below the top rank, the next threshold and as
    [honour_needed] the least gain that changes the rank: with it the
    predator holds the rank of that threshold, with any smaller gain
    its rank stays what it is.  At 150 and above there is no next
    threshold and nothing is needed. *)
Theorem X14_honour_needed_is_least_gain (p : Predator) :
  0 <= honour p ->
  let s := HonourSystem.get_honour_summary p in
  HonourSystem.rank s = HonourSystem.get_rank (honour p) /\
  (honour p < 150 ->
   exists t,
     HonourSystem.next_rank_threshold s = Some t /\
     HonourSystem.honour_needed s = t - honour p /\
     0 < HonourSystem.honour_needed s /\
     HonourSystem.rank_threshold
       (HonourSystem.get_rank (honour p + HonourSystem.honour_needed s)) = t /\
     forall k, 0 <= k < HonourSystem.honour_needed s ->
               HonourSystem.get_rank (honour p + k)
               = HonourSystem.get_rank (honour p)) /\
  (150 <= honour p ->
   HonourSystem.next_rank_threshold s = None /\
   HonourSystem.honour_needed s = 0 /\
   HonourSystem.rank s = "Ancient").
Proof.
  intros Hh s. split; [reflexivity|].
  destruct (summary_fields p) as [Hn Hd]. fold s in Hn, Hd.
  rewrite Hn, Hd. clear Hn Hd.
  assert (Hr : HonourSystem.rank s = HonourSystem.get_rank (honour p))
    by reflexivity.
  rewrite Hr. clear Hr.
  destruct (Z.ltb_spec (honour p) 0); [lia|].
  split.
  - intros Hlt.
    destruct (Z.ltb_spec (honour p) 30).
    { exists 30. split; [reflexivity|]. split; [reflexivity|].
      split; [lia|]. split.
      - replace (honour p + (30 - honour p)) with 30 by lia. reflexivity.
      - intros k Hk. rank_cases. }
    destruct (Z.ltb_spec (honour p) 60).
    { exists 60. split; [reflexivity|]. split; [reflexivity|].
      split; [lia|]. split.
      - replace (honour p + (60 - honour p)) with 60 by lia. reflexivity.
      - intros k Hk. rank_cases. }
    destruct (Z.ltb_spec (honour p) 100).
    { exists 100. split; [reflexivity|]. split; [reflexivity|].
      split; [lia|]. split.
      - replace (honour p + (100 - honour p)) with 100 by lia. reflexivity.
      - intros k Hk. rank_cases. }
    destruct (Z.ltb_spec (honour p) 150); [|lia].
    exists 150. split; [reflexivity|]. split; [reflexivity|].
    split; [lia|]. split.
    + replace (honour p + (150 - honour p)) with 150 by lia. reflexivity.
    + intros k Hk. rank_cases.
  - intros Hge.
    destruct (Z.ltb_spec (honour p) 30); [lia|].
    destruct (Z.ltb_spec (honour p) 60); [lia|].
    destruct (Z.ltb_spec (honour p) 100); [lia|].
    destruct (Z.ltb_spec (honour p) 150); [lia|].
    split; [reflexivity|]. split; [reflexivity|]. rank_cases.
Qed.

Lemma X14_witness :
  exists t,
    HonourSystem.next_rank_threshold
      (HonourSystem.get_honour_summary (clan_member 40 100)) = Some t /\
    HonourSystem.honour_needed
      (HonourSystem.get_honour_summary (clan_member 40 100)) = t - 40.
Proof.
  destruct (X14_honour_needed_is_least_gain (clan_member 40 100))
    as (_ & H & _).
  - vm_compute. intro E. discriminate E.
  - destruct H as (t & H1 & H2 & _).
    + vm_compute. reflexivity.
    + exists t. split; assumption.
Defined.

Lemma rank_threshold_get_rank (h : Z) :
  HonourSystem.rank_threshold (HonourSystem.get_rank h)
  = if 150 <=? h then 150
    else if 100 <=? h then 100
    else if 60 <=? h then 60
    else if 30 <=? h then 30
    else 0.
Proof.
  rewrite get_rank_eq.
  destruct (150 <=? h); [reflexivity|].
  destruct (100 <=? h); [reflexivity|].
  destruct (60 <=? h); [reflexivity|].
  destruct (30 <=? h); reflexivity.
Qed.

Lemma get_rank_threshold_injective (h1 h2 : Z) :
  HonourSystem.rank_threshold (HonourSystem.get_rank h1)
  = HonourSystem.rank_threshold (HonourSystem.get_rank h2) ->
  HonourSystem.get_rank h1 = HonourSystem.get_rank h2.
Proof.
  rewrite !rank_threshold_get_rank, !get_rank_eq.
  repeat match goal with
         | |- context [?a <=? ?b] => destruct (a <=? b)
         end; intros H; try reflexivity; discriminate H.
Qed.

(** X15. [update_honour] on a combatant prints a rank line exactly when
    the rank derived from the honour changes, and then one line only: a
    promotion to the new rank when the honour went up, a demotion to it
    when the honour went down. *)
Theorem X15_rank_line_follows_honour
    (a : Agent) (p : Predator) (action : string)
    (context : option HonourSystem.Context) :
  as_predator a = Some p ->
  let '(a', delta, out) := HonourSystem.update_honour a action context in
  let h' := Z.max 0 (honour p + delta) in
  let who := name (super_predator p) in
  let rank_lines :=
    filter (fun e => match e with
                     | EvRankUp _ _ | EvRankDown _ _ => true
                     | _ => false
                     end) out in
  agent_honour a' = Some h' /\
  rank_lines
  = if String.eqb (HonourSystem.get_rank h') (HonourSystem.get_rank (honour p))
    then []
    else if honour p <? h'
         then [EvRankUp who (HonourSystem.get_rank h')]
         else [EvRankDown who (HonourSystem.get_rank h')].
Proof.
  intros Hp. unfold HonourSystem.update_honour. rewrite Hp.
  set (delta := match context with Some _ => _ | None => _ end).
  set (h' := Z.max 0 (honour p + delta)).
  cbv zeta. split.
  { unfold agent_honour. rewrite as_predator_with_predator, Hp. reflexivity. }
  rewrite filter_app.
  assert (E2 : filter (fun e => match e with
                                | EvRankUp _ _ | EvRankDown _ _ => true
                                | _ => false
                                end)
                 (if delta =? 0 then []
                  else [EvHonour (name (super_predator (set_honour h' p)))
                          delta h' (HonourSystem.get_rank h')]) = []).
  { destruct (delta =? 0); reflexivity. }
  rewrite E2, app_nil_r.
  destruct (String.eqb (HonourSystem.get_rank h')
              (HonourSystem.get_rank (honour p))) eqn:Er; [reflexivity|].
  apply String.eqb_neq in Er.
  unfold HonourSystem._announce_rank_change.
  cbn [name super_predator set_honour].
  assert (Hup : (HonourSystem.rank_threshold (HonourSystem.get_rank (honour p))
                 <? HonourSystem.rank_threshold (HonourSystem.get_rank h'))
                = (honour p <? h')).
  { assert (Hne : HonourSystem.rank_threshold (HonourSystem.get_rank h')
                  <> HonourSystem.rank_threshold
                       (HonourSystem.get_rank (honour p))).
    { intro E. apply Er. apply get_rank_threshold_injective. exact E. }
    revert Hne. rewrite !rank_threshold_get_rank.
    repeat match goal with
           | |- context [?x <=? ?y] => destruct (Z.leb_spec x y)
           end;
      intros Hne;
      destruct (Z.ltb_spec (honour p) h'); try reflexivity; try lia;
      try (exfalso; apply Hne; reflexivity). }
  rewrite Hup. destruct (honour p <? h'); reflexivity.
Qed.

Lemma X15_witness :
  filter (fun e => match e with
                   | EvRankUp _ _ | EvRankDown _ _ => true
                   | _ => false
                   end)
    (snd (HonourSystem.update_honour (APredator (clan_member 40 100))
            "dishonourable_kill" None))
  = [EvRankDown "Kuril" "Unblooded"].
Proof.
  pose proof (X15_rank_line_follows_honour (APredator (clan_member 40 100))
                (clan_member 40 100) "dishonourable_kill" None eq_refl) as H.
  destruct (HonourSystem.update_honour (APredator (clan_member 40 100))
              "dishonourable_kill" None) as [[a' delta] out] eqn:E.
  destruct H as [_ H]. cbn [snd]. rewrite H.
  assert (Hd : delta = -50).
  { revert E. vm_compute. intros [= _ <- _]. reflexivity. }
  subst delta. vm_compute. reflexivity.
Defined.

(** ** Movement on the grid *)

Lemma pos_eqb_refl_iff (p q : Pos) : pos_eqb p q = true <-> p = q.
Proof.
  destruct p as [a b], q as [c d]. unfold pos_eqb. cbn [fst snd].
  rewrite andb_true_iff, !Z.eqb_eq. split.
  - intros [-> ->]. reflexivity.
  - intros [= -> ->]. split; reflexivity.
Qed.

(** A wrapped cell passes the grid's own checks whether or not the grid
    wraps: [is_valid_position] only asks for the obstacle, [move_agent]
    moves. *)
Lemma wrapped_step (g : Grid) (b : BaseAgent) (pos : Pos) :
  0 < width g -> 0 < height g ->
  let t := wrapped g pos in
  Grid.in_bounds g (fst t) (snd t) = true /\
  Grid.is_valid_position g t
  = Some (negb (existsb (pos_eqb t) (obstacles g))) /\
  Grid.move_agent g b t = Some (BaseAgent.move_to t b).
Proof.
  intros Hw Hh t.
  assert (Hx : 0 <= fst pos mod width g < width g)
    by (apply Z.mod_pos_bound; exact Hw).
  assert (Hy : 0 <= snd pos mod height g < height g)
    by (apply Z.mod_pos_bound; exact Hh).
  subst t. unfold wrapped.
  set (tx := fst pos mod width g) in *.
  set (ty := snd pos mod height g) in *.
  cbn [fst snd].
  assert (Hb : Grid.in_bounds g tx ty = true).
  { unfold Grid.in_bounds.
    rewrite !andb_true_iff, !Z.leb_le, !Z.ltb_lt. lia. }
  assert (Hwrap : Grid.wrap_if_enabled g (tx, ty) = Some (tx, ty)).
  { unfold Grid.wrap_if_enabled, py_mod.
    destruct (wrapping g); [|reflexivity].
    destruct (Z.eqb_spec (width g) 0); [lia|].
    destruct (Z.eqb_spec (height g) 0); [lia|].
    unfold tx, ty. rewrite !Z.mod_mod by lia. reflexivity. }
  split; [exact Hb|].
  unfold Grid.is_valid_position, Grid.move_agent. rewrite Hwrap, Hb.
  cbn [negb]. split; reflexivity.
Qed.

(** X16. On a grid of positive size [Predator._execute_move] never
    raises and always pays the stamina, 5 when carrying Thia and 2
    otherwise, floored at 0.  The predator ends on the cell one step
    away in the given direction, taken modulo the size of the grid,
    unless that cell is an obstacle, in which case it stays; this holds
    whether or not the grid has wrapping enabled, so a step over the
    edge of a grid without wrapping comes out on the other side.  A
    predator that stood on open ground still does. *)
Theorem X16_predator_step_lands_on_open_ground
    (direction : Direction) (environment : Grid) (self : Predator) :
  0 < width environment -> 0 < height environment ->
  let here := position (super_predator self) in
  let target := wrapped environment (Predator.moves here direction) in
  exists self',
    Predator._execute_move direction environment self = Some self' /\
    stamina self'
    = Z.max 0 (stamina self - (if carrying_thia self then 5 else 2)) /\
    position (super_predator self')
    = (if existsb (pos_eqb target) (obstacles environment)
       then here else target) /\
    (on_open_ground environment here = true ->
     on_open_ground environment (position (super_predator self')) = true).
Proof.
  intros Hw Hh here target.
  unfold Predator._execute_move, py_mod.
  destruct (Z.eqb_spec (width environment) 0); [lia|].
  destruct (Z.eqb_spec (height environment) 0); [lia|].
  cbv zeta.
  set (self1 := set_stamina _ self).
  destruct (wrapped_step environment (super_predator self1)
              (Predator.moves here direction) Hw Hh) as (Hb & Hv & Hm).
  fold target in Hb, Hv, Hm.
  change (fst (Predator.moves (position (super_predator self)) direction)
            mod width environment,
          snd (Predator.moves (position (super_predator self)) direction)
            mod height environment) with target.
  rewrite Hv.
  destruct (existsb (pos_eqb target) (obstacles environment)) eqn:Hobs;
    cbn [negb].
  - exists self1. repeat split; auto.
  - rewrite Hm. eexists. split; [reflexivity|].
    split; [reflexivity|]. split; [reflexivity|].
    intros _. cbn. unfold on_open_ground. rewrite Hb, Hobs. reflexivity.
Qed.

Lemma X16_witness :
  exists self',
    Predator._execute_move dW walled (plain_dek (0, 5)) = Some self' /\
    stamina self' = 98 /\
    position (super_predator self') = (19, 5).
Proof.
  destruct (X16_predator_step_lands_on_open_ground dW walled
              (plain_dek (0, 5))) as (self' & H1 & H2 & H3 & _).
  - vm_compute. reflexivity.
  - vm_compute. reflexivity.
  - exists self'. split; [exact H1|]. split.
    + rewrite H2. vm_compute. reflexivity.
    + rewrite H3. vm_compute. reflexivity.
Defined.

(** The rock east of Dek stops the step; the stamina is paid all the
    same. *)
Example predator_blocked_by_obstacle :
  Predator._execute_move dE walled (plain_dek (0, 5))
  = Some (set_stamina 98 (plain_dek (0, 5))).
Proof. vm_compute. reflexivity. Qed.

(** X17. On a grid of positive size [Adversary._execute_move] never
    raises and changes nothing of the adversary but its position: it
    ends on the cell one step away in the given direction, one of
    eight, taken modulo the size of the grid with wrapping enabled or
    not, unless that cell is an obstacle, in which case nothing
    changes at all.  An adversary that stood on open ground still
    does. *)
Theorem X17_adversary_step_lands_on_open_ground
    (direction : Direction) (environment : Grid) (self : Adversary) :
  0 < width environment -> 0 < height environment ->
  let here := position (super_adversary self) in
  let target := wrapped environment (Adversary.moves here direction) in
  Adversary._execute_move direction environment self
  = Some (if existsb (pos_eqb target) (obstacles environment) then self
          else set_super_adversary
                 (BaseAgent.move_to target (super_adversary self)) self) /\
  forall self',
    Adversary._execute_move direction environment self = Some self' ->
    on_open_ground environment here = true ->
    on_open_ground environment (position (super_adversary self')) = true.
Proof.
  intros Hw Hh here target.
  assert (E : Adversary._execute_move direction environment self
              = Some (if existsb (pos_eqb target) (obstacles environment)
                      then self
                      else set_super_adversary
                             (BaseAgent.move_to target (super_adversary self))
                             self)).
  { unfold Adversary._execute_move, py_mod.
    destruct (Z.eqb_spec (width environment) 0); [lia|].
    destruct (Z.eqb_spec (height environment) 0); [lia|].
    cbv zeta.
    destruct (wrapped_step environment (super_adversary self)
                (Adversary.moves here direction) Hw Hh) as (Hb & Hv & Hm).
    fold target in Hb, Hv, Hm.
    change (fst (Adversary.moves (position (super_adversary self)) direction)
              mod width environment,
            snd (Adversary.moves (position (super_adversary self)) direction)
              mod height environment) with target.
    rewrite Hv.
    destruct (existsb (pos_eqb target) (obstacles environment));
      cbn [negb]; [reflexivity|].
    rewrite Hm. reflexivity. }
  split; [exact E|].
  intros self' E' Hopen. rewrite E in E'. injection E' as <-.
  destruct (existsb (pos_eqb target) (obstacles environment)) eqn:Hobs;
    [exact Hopen|].
  destruct (wrapped_step environment (super_adversary self)
              (Adversary.moves here direction) Hw Hh) as (Hb & _ & _).
  fold target in Hb. cbn. unfold on_open_ground. rewrite Hb, Hobs.
  reflexivity.
Qed.

Lemma X17_witness :
  Adversary._execute_move dNW walled
    (Adversary.__init__ "The Great Beast" (0, 0) 500 5)
  = Some (set_super_adversary
            (BaseAgent.move_to (19, 19)
               (super_adversary
                  (Adversary.__init__ "The Great Beast" (0, 0) 500 5)))
            (Adversary.__init__ "The Great Beast" (0, 0) 500 5)).
Proof.
  destruct (X17_adversary_step_lands_on_open_ground dNW walled
              (Adversary.__init__ "The Great Beast" (0, 0) 500 5))
    as [H _].
  - vm_compute. reflexivity.
  - vm_compute. reflexivity.
  - rewrite H. vm_compute. reflexivity.
Defined.

(** X18. Resting once is enough to fight again: a living predator with
    stamina at least 0 and a stamina ceiling of at least 10 has, after
    [_execute_rest], stamina [min (stamina + 15) max_stamina], which is
    at least 10, and [resolve_combat] against any living defender then
    succeeds and leaves it with that stamina less 10.  The rest itself
    raises health by at most 5, never above the maximum, and lets the
    alive flag alone. *)
Theorem X18_one_rest_restores_the_attack
    (self : Predator) (defender : Agent) (variance roll : Q) :
  0 <= stamina self -> 10 <= max_stamina self ->
  is_alive (super_predator self) = true ->
  is_alive (agent_base defender) = true ->
  let rested := Predator._execute_rest self in
  stamina rested = Z.min (stamina self + 15) (max_stamina self) /\
  10 <= stamina rested /\
  health (super_predator rested)
  = Z.min (health (super_predator self) + 5)
      (max_health (super_predator self)) /\
  is_alive (super_predator rested) = true /\
  exists dmg critical alive defeated attacker' defender' out,
    CombatSystem.resolve_combat (APredator rested) defender variance roll
    = (CombatSystem.Success (name (super_predator self))
         (name (agent_base defender')) dmg critical alive defeated,
       attacker', defender', out) /\
    1 <= dmg /\
    agent_stamina attacker' = Some (stamina rested - 10).
Proof.
  intros Hs Hm Ha Hd rested.
  assert (E1 : stamina rested = Z.min (stamina self + 15) (max_stamina self))
    by reflexivity.
  split; [exact E1|]. split; [lia|]. split; [reflexivity|].
  split; [exact Ha|].
  destruct (resolve_combat_success (APredator rested) defender variance roll)
    as (dmg & critical & alive & defeated & attacker' & defender' & out
        & Hr & Hdmg & Hst).
  - exact Ha.
  - exact Hd.
  - unfold CombatSystem.exhausted. cbn [as_predator].
    apply Z.ltb_ge. lia.
  - exists dmg, critical, alive, defeated, attacker', defender', out.
    split; [exact Hr|]. split; [exact Hdmg|]. exact Hst.
Qed.

Lemma X18_witness :
  10 <= stamina (Predator._execute_rest (set_stamina 0 (plain_dek (5, 5)))).
Proof.
  apply (X18_one_rest_restores_the_attack (set_stamina 0 (plain_dek (5, 5)))
           (AAdversary the_beast) 1 (1 # 2)).
  - vm_compute. intro E. discriminate E.
  - vm_compute. intro E. discriminate E.
  - reflexivity.
  - reflexivity.
Defined.
